(** * The shopping-cart subsystem of the storefront template

    A shallow embedding of the cart reducer, the persistence adapter, the
    majority-currency policy and the checkout handoff, followed by the
    properties of the specification that concern them.

    Conventions of the embedding:
    - a JavaScript [string] is a [string]; [string | null] is
      [option string] with [None] for [null];
    - a JavaScript [number] is an integer ([Z]): quantities are whole
      numbers, and a price is a value the cart code only ever copies.  The
      code adds numbers as IEEE 754 doubles, which is the addition of
      integers as long as the operands and the sum are integers of
      magnitude at most [2^53] ([safe_integer]); the statements about
      the value of a sum of quantities carry the bound under which that
      sum is exact;
    - an array is a [list]; indexing and in-place update of a copy are
      stdpp's list lookup and insert. *)

From Stdlib Require Import ZArith Ascii String.
From stdpp Require Import base list strings gmap pretty sorting.

Local Open Scope Z_scope.

(** ** Data model (src/lib/api/types.ts) *)

(** [interface CartItem]. *)
Record CartItem := mkCartItem {
  item_productId : string;
  item_name : string;
  item_price : Z;
  item_currency : string;
  item_image : string;
  item_color : option string;
  item_size : option string;
  quantity : Z
}.

(** Payload of [REMOVE_ITEM]. *)
Record RemovePayload := mkRemove {
  rm_productId : string;
  rm_color : option string;
  rm_size : option string
}.

(** Payload of [UPDATE_QUANTITY]. *)
Record UpdatePayload := mkUpdate {
  up_productId : string;
  up_color : option string;
  up_size : option string;
  up_quantity : Z
}.

(** The structural type [{ productId; color; size }] that [isSameVariant]
    accepts: every payload that carries the three discriminators. *)
Class Variant (A : Type) := {
  productId : A → string;
  color : A → option string;
  size : A → option string
}.

#[export] Instance CartItem_Variant : Variant CartItem :=
  {| productId := item_productId; color := item_color; size := item_size |}.
#[export] Instance RemovePayload_Variant : Variant RemovePayload :=
  {| productId := rm_productId; color := rm_color; size := rm_size |}.
#[export] Instance UpdatePayload_Variant : Variant UpdatePayload :=
  {| productId := up_productId; color := up_color; size := up_size |}.

(** [type CartAction]. *)
Inductive CartAction :=
| ADD_ITEM (payload : CartItem)
| REMOVE_ITEM (payload : RemovePayload)
| UPDATE_QUANTITY (payload : UpdatePayload)
| CLEAR_CART
| HYDRATE (payload : list CartItem).

(** ** Helpers *)

(** [a.productId === b.productId && a.color === b.color && a.size === b.size] *)
Definition isSameVariant `{Variant A, Variant B} (a : A) (b : B) : bool :=
  bool_decide (productId a = productId b)
  && bool_decide (color a = color b)
  && bool_decide (size a = size b).

(** [{ ...item, quantity: q }]: a copy of [item] with only [quantity]
    replaced. *)
Definition with_quantity (q : Z) (item : CartItem) : CartItem :=
  {| item_productId := item_productId item;
     item_name := item_name item;
     item_price := item_price item;
     item_currency := item_currency item;
     item_image := item_image item;
     item_color := item_color item;
     item_size := item_size item;
     quantity := q |}.

(** [Array.prototype.findIndex]: the index of the first element that
    satisfies [p]; [None] stands for the result [-1]. *)
Fixpoint findIndex {A} (p : A → bool) (l : list A) : option nat :=
  match l with
  | [] => None
  | x :: l' => if p x then Some 0%nat else S <$> findIndex p l'
  end.

(** ** Reducer *)

Definition cartReducer (state : list CartItem) (action : CartAction)
  : list CartItem :=
  match action with
  | ADD_ITEM payload =>
      match findIndex (λ item, isSameVariant item payload) state with
      | Some existing =>
          (* Deduplicate: increment quantity of matching line item. *)
          match state !! existing with
          | Some cur =>
              <[existing := with_quantity (quantity cur + quantity payload) cur]> state
          | None => state
          end
      | None => state ++ [payload]
      end
  | REMOVE_ITEM payload =>
      filter (λ item, negb (isSameVariant item payload) = true) state
  | UPDATE_QUANTITY payload =>
      (λ item,
         if isSameVariant item payload
         then with_quantity (Z.max 1 (up_quantity payload)) item
         else item) <$> state
  | CLEAR_CART => []
  | HYDRATE payload => payload
  end.

(** Dispatching a sequence of actions, in order. *)
Definition dispatch_all (state : list CartItem) (actions : list CartAction)
  : list CartItem :=
  foldl cartReducer state actions.

(** ** Majority-currency resolution (CartSummary.tsx) *)

(** The structural type [{ currency: string }]. *)
Class HasCurrency (A : Type) := currency : A → string.

#[export] Instance CartItem_HasCurrency : HasCurrency CartItem := item_currency.

(** A value found under a key of [counts]: a number, or a value that is
    not one -- a member inherited from [Object.prototype] (a function or
    an object) or the text that [+ 1] makes of it.  Such a value is truthy,
    its sum with [1] is again a text that is not the text of a number, and
    it compares with a number as [NaN] does. *)
Inductive CountValue :=
| Count (n : Z)
| NotNumber.

(** The [counts] object, a [Record<string, number>] made by the literal
    [{}]: its own properties in the order of their creation. *)
Abbreviation Counts := (list (string * CountValue)).

(** The members of [Object.prototype], which [counts] inherits. *)
Definition inherited_members : list string :=
  ["constructor"; "__defineGetter__"; "__defineSetter__"; "hasOwnProperty";
   "__lookupGetter__"; "__lookupSetter__"; "isPrototypeOf";
   "propertyIsEnumerable"; "toString"; "valueOf"; "__proto__";
   "toLocaleString"].

(** The own property [key] of [counts]: [None] when there is none. *)
Fixpoint counts_get (key : string) (counts : Counts) : option CountValue :=
  match counts with
  | [] => None
  | (k, v) :: rest => if bool_decide (k = key) then Some v else counts_get key rest
  end.

(** Defining the own property [key]: an existing property keeps its place,
    a new one is added last. *)
Fixpoint counts_set (key : string) (value : CountValue) (counts : Counts) : Counts :=
  match counts with
  | [] => [(key, value)]
  | (k, v) :: rest =>
      if bool_decide (k = key) then (k, value) :: rest
      else (k, v) :: counts_set key value rest
  end.

(** [counts[key]] as an expression: the own property, else the inherited
    member; [None] is [undefined]. *)
Definition counts_read (key : string) (counts : Counts) : option CountValue :=
  match counts_get key counts with
  | Some v => Some v
  | None => if bool_decide (key ∈ inherited_members) then Some NotNumber else None
  end.

(** [(v || 0) + 1]. *)
Definition incremented (v : option CountValue) : CountValue :=
  match v with
  | Some (Count n) => Count ((if bool_decide (n = 0) then 0 else n) + 1)
  | Some NotNumber => NotNumber
  | None => Count (0 + 1)
  end.

(** [counts[key] = value]: [__proto__] is an accessor whose setter ignores
    a value that is not an object, so that assignment defines nothing. *)
Definition counts_assign (key : string) (value : CountValue) (counts : Counts)
  : Counts :=
  if bool_decide (key = "__proto__") then counts else counts_set key value counts.

(** The first loop: [counts[item.currency] = (counts[item.currency] || 0) + 1]. *)
Definition count_currencies `{HasCurrency A} (items : list A) : Counts :=
  foldl (λ counts item,
           counts_assign (currency item)
             (incremented (counts_read (currency item) counts)) counts)
        [] items.

(** The value of a decimal digit. *)
Definition digit_value (a : ascii) : option N :=
  let n := N_of_ascii a in
  if (48 <=? n)%N && (n <=? 57)%N then Some (n - 48)%N else None.

Fixpoint digits_value (acc : N) (s : string) : option N :=
  match s with
  | EmptyString => Some acc
  | String a rest => d ← digit_value a; digits_value (10 * acc + d)%N rest
  end.

(** An array index: the canonical decimal text of an integer from [0] to
    [2^32 - 2]. *)
Definition array_index (key : string) : option N :=
  match key with
  | EmptyString => None
  | _ =>
      n ← digits_value 0 key;
      if bool_decide (pretty n = key) && bool_decide (n < 2 ^ 32 - 1)%N
      then Some n else None
  end.

(** The order of entries tagged with their array index. *)
Definition by_index (a b : N * (string * CountValue)) : Prop :=
  (fst a ≤ fst b)%N.

#[export] Instance by_index_dec a b : Decision (by_index a b) :=
  decide (fst a ≤ fst b)%N.

(** [Object.entries(counts)]: the own properties whose keys are array
    indices, in ascending order of the index, then the others in the order
    of their creation. *)
Definition Object_entries (counts : Counts) : Counts :=
  (snd <$> merge_sort by_index
             (omap (λ entry, (λ n, (n, entry)) <$> array_index (fst entry)) counts))
  ++ filter (λ entry, array_index (fst entry) = None) counts.

(** The second loop, on the pair [(majority, max)]: [count > max] is false
    for a [count] that is not a number. *)
Definition pick_majority (init : string * Z) (entries : Counts) : string * Z :=
  foldl (λ '(majority, max) '(cur, count),
           match count with
           | Count n => if bool_decide (n > max) then (cur, n) else (majority, max)
           | NotNumber => (majority, max)
           end)
        init entries.

Definition getMajorityCurrency `{HasCurrency A} (items : list A) : string :=
  match items with
  | [] => "USD"
  | item0 :: _ =>
      fst (pick_majority (currency item0, 0) (Object_entries (count_currencies items)))
  end.

(** A key of [counts] that is enumerated where it was created and that
    names no inherited member. *)
Definition ordinary_key (key : string) : bool :=
  bool_decide (array_index key = None)
  && negb (bool_decide (key ∈ inherited_members)).

(** An alphabetic ISO 4217 code: capital letters only. *)
Definition is_capital (a : ascii) : bool :=
  (65 <=? nat_of_ascii a)%nat && (nat_of_ascii a <=? 90)%nat.

Definition is_alpha_code (c : string) : bool :=
  forallb is_capital (list_ascii_of_string c).

(** ** JSON values *)

(** The values that [JSON.stringify] writes and [JSON.parse] returns. An
    object keeps its members in order. *)
#[warnings="-register-all"]
Inductive json :=
| JNull
| JBool (b : bool)
| JNum (n : Z)
| JStr (s : string)
| JArr (elems : list json)
| JObj (members : list (string * json)).

(** [string | null] as a value. *)
Definition json_of_nullable (s : option string) : json :=
  match s with Some s => JStr s | None => JNull end.

(** An object literal some of whose property values may be [undefined]
    ([None]); [JSON.stringify] leaves those properties out. *)
Definition js_object (members : list (string * option json)) : json :=
  JObj (omap (λ '(k, v), (k,.) <$> v) members).

(** Every property name that occurs in a value, at any depth. *)
Fixpoint json_keys (j : json) : list string :=
  match j with
  | JArr elems => concat (map json_keys elems)
  | JObj members => concat (map (λ '(k, v), k :: json_keys v) members)
  | _ => []
  end.

(** The property names of the object itself, in order. *)
Definition own_keys (j : json) : list string :=
  match j with
  | JObj members => fst <$> members
  | _ => []
  end.

(** [o[key]] on a value; [None] is [undefined]. *)
Definition json_get (key : string) (j : json) : option json :=
  match j with
  | JObj members => snd <$> find (λ '(k, _), bool_decide (k = key)) members
  | _ => None
  end.

(** The array of cart items as the value that is serialized: each item an
    object with the members of [interface CartItem]. *)
Definition item_value (item : CartItem) : json :=
  JObj [("productId", JStr (item_productId item));
        ("name", JStr (item_name item));
        ("price", JNum (item_price item));
        ("currency", JStr (item_currency item));
        ("image", JStr (item_image item));
        ("color", json_of_nullable (item_color item));
        ("size", json_of_nullable (item_size item));
        ("quantity", JNum (quantity item))].

Definition cart_value (items : list CartItem) : json :=
  JArr (item_value <$> items).

(** The type assertion [as CartItem[]]: the view of a parsed value at the
    asserted type, defined where the value has that shape. *)
Definition as_nullable (j : json) : option (option string) :=
  match j with
  | JStr s => Some (Some s)
  | JNull => Some None
  | _ => None
  end.

Definition as_CartItem (j : json) : option CartItem :=
  match j with
  | JObj [("productId", JStr p); ("name", JStr n); ("price", JNum pr);
          ("currency", JStr c); ("image", JStr i); ("color", col);
          ("size", sz); ("quantity", JNum q)] =>
      col' ← as_nullable col;
      sz' ← as_nullable sz;
      Some (mkCartItem p n pr c i col' sz' q)
  | _ => None
  end.

Definition as_CartItems (j : json) : option (list CartItem) :=
  match j with
  | JArr elems => mapM as_CartItem elems
  | _ => None
  end.

(** ** Exceptions *)

(** What a [catch (err)] clause receives: an [Error] object with its
    message, or some other thrown value ([err instanceof Error] is false). *)
Inductive Thrown :=
| ErrorObject (message : string)
| OtherValue.

(** ** Persistent store adapter (src/lib/api/types.ts) *)

Definition STORAGE_KEY : string := "spensit_cart".

(** The browser's [localStorage]: not usable at all (server-side rendering,
    storage disabled), or a table of strings that refuses a value longer
    than its remaining quota. *)
Inductive LocalStorage :=
| Unavailable
| Available (quota : nat) (slots : gmap string string).

(** [localStorage.setItem(key, value)] *)
Definition setItem (key value : string) (st : LocalStorage)
  : Thrown + LocalStorage :=
  match st with
  | Unavailable => inl (ErrorObject "SecurityError")
  | Available quota slots =>
      if (String.length value <=? quota)%nat
      then inr (Available quota (<[key := value]> slots))
      else inl (ErrorObject "QuotaExceededError")
  end.

(** [localStorage.getItem(key)]; [None] is [null]. *)
Definition getItem (key : string) (st : LocalStorage)
  : Thrown + option string :=
  match st with
  | Unavailable => inl (ErrorObject "SecurityError")
  | Available _ slots => inr (slots !! key)
  end.

(** Truthiness of a string: the empty string is falsy. *)
Definition truthy (s : string) : bool := negb (bool_decide (s = EmptyString)).

(** [a || b] on an optional string: [a] when it is defined and not empty. *)
Definition or_else (a : option string) (b : string) : string :=
  match a with
  | Some s => if truthy s then s else b
  | None => b
  end.

Section Persistence.

(** The platform's serializer and parser; [JSON_parse] answers [None]
    where [JSON.parse] throws a [SyntaxError]. *)
Variable JSON_stringify : json → string.
Variable JSON_parse : string → option json.

(** [persistCart]: the exception of a failed write is discarded. *)
Definition persistCart (items : list CartItem) (st : LocalStorage)
  : LocalStorage :=
  match setItem STORAGE_KEY (JSON_stringify (cart_value items)) st with
  | inr st' => st'
  | inl _ => st
  end.

(** [loadCart]: the parsed value, or the empty array. *)
Definition loadCart (st : LocalStorage) : json :=
  match getItem STORAGE_KEY st with
  | inr (Some stored) =>
      if truthy stored then
        match JSON_parse stored with
        | Some parsed => parsed
        | None => JArr []
        end
      else JArr []
  | inr None => JArr []
  | inl _ => JArr []
  end.

(** A list is serializable when the platform's parser reads back what
    its serializer wrote for it. *)
Definition serializable (items : list CartItem) : Prop :=
  JSON_parse (JSON_stringify (cart_value items)) = Some (cart_value items)
  ∧ JSON_stringify (cart_value items) ≠ EmptyString.

End Persistence.

(** ** Checkout handoff (CheckoutButton.tsx, CartDrawer.tsx) *)

(** [data] of a checkout response; an absent member is [None]. *)
Record CheckoutData := mkData {
  checkout_url : option string;
  link_id : option string;
  brand_id : option string
}.

(** The body of a response, at the types the handlers assert for it:
    [{ error?: string }] when the response is not ok, [{ data: ... }] when
    it is. *)
Record ResponseBody := mkBody {
  error : option string;
  data : CheckoutData
}.

(** [{}], the body used when that of a failed response cannot be read. *)
Definition empty_body : ResponseBody := mkBody None (mkData None None None).

(** A [Response]: [body] is what [response.json()] resolves to, or the
    exception it rejects with. *)
Record Response := mkResponse {
  ok : bool;
  status : Z;
  body : Thrown + ResponseBody
}.

(** How the [fetch] call ends. *)
Inductive FetchOutcome :=
| Rejected (err : Thrown)
| Responded (response : Response).

(** The observable steps of a handler, in program order. *)
Inductive Effect :=
| SetLoading (b : bool)
| SetError (message : option string)
| Fetch (url : string) (request : json)
| Dispatch (action : CartAction)
| CloseDrawer
| Navigate (url : string).

(** A computation that records its effects and either returns or throws. *)
Definition Eff (A : Type) : Type := (list Effect * (Thrown + A))%type.

#[export] Instance Eff_ret : MRet Eff := λ A a, ([], inr a).

#[export] Instance Eff_bind : MBind Eff := λ A B k m,
  match m with
  | (t, inl e) => (t, inl e)
  | (t, inr a) => let '(t', r) := k a in (t ++ t', r)
  end.

Definition emit (e : Effect) : Eff unit := ([e], inr tt).

Definition throw {A} (e : Thrown) : Eff A := ([], inl e).

(** [try { body } catch (err) { handler }] *)
Definition try_catch {A} (body : Eff A) (handler : Thrown → Eff A) : Eff A :=
  match body with
  | (t, inl e) => let '(t', r) := handler e in (t ++ t', r)
  | (t, inr a) => (t, inr a)
  end.

(** [await] of a promise that has settled. *)
Definition await {A} (settled : Thrown + A) : Eff A := ([], settled).

(** [fetch(url, { method: 'POST', body: JSON.stringify(request) })] *)
Definition fetch (url : string) (request : json) (net : FetchOutcome)
  : Eff Response :=
  emit (Fetch url request);;
  match net with
  | Rejected err => throw err
  | Responded response => mret response
  end.

(** The projection [{ product_id, color, size, quantity }] of a line item. *)
Definition checkout_item (item : CartItem) : json :=
  JObj [("product_id", JStr (item_productId item));
        ("color", json_of_nullable (item_color item));
        ("size", json_of_nullable (item_size item));
        ("quantity", JNum (quantity item))].

(** [{ cart_items: cartItems, currency }] *)
Definition checkout_request (cartItems : list json) (currency : option string)
  : json :=
  js_object [("cart_items", Some (JArr cartItems));
             ("currency", JStr <$> currency)].

(** [err instanceof Error ? err.message : '...'] *)
Definition message_of (err : Thrown) : string :=
  match err with
  | ErrorObject message => message
  | OtherValue => "Something went wrong. Please try again."
  end.

(** [`Checkout failed (${response.status})`] *)
Definition checkout_failed (status : Z) : string :=
  "Checkout failed (" +:+ pretty status +:+ ")".

(** [body.error || `Checkout failed (${response.status})`], with
    [response.json().catch(() => ({}))] for the body. *)
Definition failure_message (response : Response) : string :=
  let body := match body response with inr b => b | inl _ => empty_body end in
  or_else (error body) (checkout_failed (status response)).

Definition payment_host : string := "spenspay.spensit.com".

(** [`https://spenspay.spensit.com/tempcheckout/${brand_id}/${link_id}`] *)
Definition tempcheckout_url (brandId linkId : string) : string :=
  "https://" +:+ payment_host +:+ "/tempcheckout/" +:+ brandId +:+ "/" +:+ linkId.

(** A member that is defined and truthy. *)
Definition present (member : option string) : option string :=
  match member with
  | Some s => if truthy s then Some s else None
  | None => None
  end.

Module CheckoutButton.

(** The choice of [redirectUrl]. *)
Definition redirectUrl (data : CheckoutData) : Eff string :=
  match present (checkout_url data) with
  | Some url => mret url
  | None =>
      match present (link_id data), present (brand_id data) with
      | Some linkId, Some brandId => mret (tempcheckout_url brandId linkId)
      | _, _ =>
          throw (ErrorObject
            "No checkout URL or link_id/brand_id returned from the checkout API.")
      end
  end.

(** [const currency = items.length > 0 ? items[0].currency : undefined] *)
Definition currency_hint (items : list CartItem) : option string :=
  item_currency <$> head items.

Definition request (items : list CartItem) : json :=
  checkout_request (checkout_item <$> items) (currency_hint items).

Definition handleCheckout (items : list CartItem) (net : FetchOutcome)
  : Eff unit :=
  emit (SetLoading true);;
  emit (SetError None);;
  try_catch
    (response ← fetch "/api/checkout" (request items) net;
     if negb (ok response)
     then throw (ErrorObject (failure_message response))
     else
       result ← await (body response);
       url ← redirectUrl (data result);
       (* Clear the cart and redirect to the hosted checkout page. *)
       emit (Dispatch CLEAR_CART);;
       emit (Navigate url))
    (λ err,
       emit (SetError (Some (message_of err)));;
       emit (SetLoading false)).

End CheckoutButton.

Module CartDrawer.

(** The two checks on [linkId] and [brandId], then the URL. *)
Definition redirectUrl (data : CheckoutData) : Eff string :=
  match present (link_id data) with
  | None => throw (ErrorObject "No link_id returned from the checkout API.")
  | Some linkId =>
      match present (brand_id data) with
      | None => throw (ErrorObject "No brand_id returned from the checkout API.")
      | Some brandId => mret (tempcheckout_url brandId linkId)
      end
  end.

(** [const displayCurrency = items.length > 0 ? items[0].currency : 'USD'] *)
Definition displayCurrency (items : list CartItem) : string :=
  default "USD" (item_currency <$> head items).

Definition request (items : list CartItem) : json :=
  checkout_request (checkout_item <$> items) (Some (displayCurrency items)).

Definition handleCheckout (items : list CartItem) (net : FetchOutcome)
  : Eff unit :=
  emit (SetLoading true);;
  emit (SetError None);;
  try_catch
    (response ← fetch "/api/checkout" (request items) net;
     if negb (ok response)
     then throw (ErrorObject (failure_message response))
     else
       result ← await (body response);
       url ← redirectUrl (data result);
       (* Clear the cart and redirect to SpensPay hosted checkout. *)
       emit (Dispatch CLEAR_CART);;
       emit CloseDrawer;;
       emit (Navigate url))
    (λ err,
       emit (SetError (Some (message_of err)));;
       emit (SetLoading false)).

End CartDrawer.

(** ** The session the handlers act on *)

(** What a handler can change: the cart behind [useCart], the drawer flag,
    the component's [loading] and [error] state, the requests sent, and the
    page location ([None] while the storefront is still shown). *)
Record Session := mkSession {
  items : list CartItem;
  isDrawerOpen : bool;
  loading : bool;
  errorShown : option string;
  sent : list json;
  location : option string
}.

Definition perform (s : Session) (e : Effect) : Session :=
  match e with
  | SetLoading b =>
      mkSession (items s) (isDrawerOpen s) b (errorShown s) (sent s) (location s)
  | SetError message =>
      mkSession (items s) (isDrawerOpen s) (loading s) message (sent s) (location s)
  | Fetch _ request =>
      mkSession (items s) (isDrawerOpen s) (loading s) (errorShown s)
                (sent s ++ [request]) (location s)
  | Dispatch action =>
      mkSession (cartReducer (items s) action) (isDrawerOpen s) (loading s)
                (errorShown s) (sent s) (location s)
  | CloseDrawer =>
      mkSession (items s) false (loading s) (errorShown s) (sent s) (location s)
  | Navigate url =>
      mkSession (items s) (isDrawerOpen s) (loading s) (errorShown s) (sent s)
                (Some url)
  end.

(** A click on the checkout control, or on "Try again": both run the
    handler of the current render, which reads the current [items]. *)
Definition click (handler : list CartItem → FetchOutcome → Eff unit)
    (s : Session) (net : FetchOutcome) : Session :=
  foldl perform s (fst (handler (items s) net)).

Definition initial_session (l : list CartItem) : Session :=
  mkSession l false false None [] None.

(** The two places that start a checkout. *)
Inductive CallSite := Button | Drawer.

Definition handler_of (site : CallSite)
  : list CartItem → FetchOutcome → Eff unit :=
  match site with
  | Button => CheckoutButton.handleCheckout
  | Drawer => CartDrawer.handleCheckout
  end.

Definition request_of (site : CallSite) : list CartItem → json :=
  match site with
  | Button => CheckoutButton.request
  | Drawer => CartDrawer.request
  end.

Definition resolve_of (site : CallSite) : CheckoutData → Eff string :=
  match site with
  | Button => CheckoutButton.redirectUrl
  | Drawer => CartDrawer.redirectUrl
  end.

(** What the call site does between clearing the cart and navigating. *)
Definition closing (site : CallSite) : list Effect :=
  match site with
  | Button => []
  | Drawer => [CloseDrawer]
  end.

(** The message of the error thrown when no URL is resolved. *)
Definition unresolved_message (site : CallSite) (d : CheckoutData) : string :=
  match site with
  | Button => "No checkout URL or link_id/brand_id returned from the checkout API."
  | Drawer =>
      if present (link_id d) is None
      then "No link_id returned from the checkout API."
      else "No brand_id returned from the checkout API."
  end.

(** The steps of an attempt that ends in the Failed state. *)
Definition failed_attempt (request : json) (message : string) : list Effect :=
  [SetLoading true; SetError None; Fetch "/api/checkout" request;
   SetError (Some message); SetLoading false].

(** The steps of an attempt that ends in the Redirected state; [between]
    is what the call site does between clearing and navigating. *)
Definition redirected_attempt (request : json) (between : list Effect)
    (url : string) : list Effect :=
  [SetLoading true; SetError None; Fetch "/api/checkout" request;
   Dispatch CLEAR_CART] ++ between ++ [Navigate url].

(** The response data hold no redirect URL for the call site: the checkout
    button wants [checkout_url], or else [link_id] and [brand_id]; the
    drawer wants [link_id] and [brand_id]. *)
Definition unresolved (site : CallSite) (d : CheckoutData) : Prop :=
  match site with
  | Button =>
      present (checkout_url d) = None
      ∧ (present (link_id d) = None ∨ present (brand_id d) = None)
  | Drawer => present (link_id d) = None ∨ present (brand_id d) = None
  end.

(** The kinds of failed attempt, by the outcome of the request: [fetch]
    throws; the response is not ok; the body of an ok response cannot be
    read; the body of an ok response holds no redirect URL. *)
Inductive failure (site : CallSite) : FetchOutcome → Prop :=
| fetch_throws err : failure site (Rejected err)
| response_not_ok r : ok r = false → failure site (Responded r)
| body_unreadable r err :
    ok r = true → body r = inl err → failure site (Responded r)
| url_missing r b :
    ok r = true → body r = inr b → unresolved site (data b) →
    failure site (Responded r).

(** ** Properties the statements below are phrased with *)

(** The variant identity of a line item. *)
Definition variant_of `{Variant A} (a : A) : string * option string * option string :=
  (productId a, color a, size a).

(** At most one line item for each variant identity. *)
Definition unique_variants (state : list CartItem) : Prop :=
  NoDup (variant_of <$> state).

(** Every line item has a quantity of at least one. *)
Definition quantities_positive (state : list CartItem) : Prop :=
  Forall (λ item, 1 ≤ quantity item) state.

(** The number of line items of a variant. *)
Definition occurrences `{Variant B} (b : B) (state : list CartItem) : nat :=
  length (filter (λ item, isSameVariant item b = true) state).

(** The sum of the quantities of a list of items. *)
Definition total_quantity (l : list CartItem) : Z :=
  foldr (λ item acc, quantity item + acc) 0 l.

(** The integers that a number holds exactly: between two of them, the sum
    that the code computes is their integer sum whenever that sum is one
    of them too. *)
Definition safe_integer (n : Z) : Prop := - 2 ^ 53 ≤ n ≤ 2 ^ 53.

(** Adding the numbers [qs] to [acc] one after the other stays within the
    safe integers, so that every sum on the way is exact. *)
Fixpoint sums_exact (acc : Z) (qs : list Z) : Prop :=
  match qs with
  | [] => safe_integer acc
  | q :: qs' => safe_integer acc ∧ safe_integer q ∧ sums_exact (acc + q) qs'
  end.

(** The number of line items of a currency. *)
Definition currency_count `{HasCurrency A} (c : string) (l : list A) : nat :=
  length (filter (λ item, currency item = c) l).


(** Two carts that differ at most in the display fields [name], [price]
    and [image] of their items. *)
Definition same_order_data (a b : CartItem) : Prop :=
  item_productId a = item_productId b ∧ item_color a = item_color b
  ∧ item_size a = item_size b ∧ quantity a = quantity b
  ∧ item_currency a = item_currency b.

(** The keys a checkout request must never carry. *)
Definition forbidden_keys : list string :=
  ["price"; "subtotal"; "total_price"; "vat"].

(** The keys a checkout request is made of. *)
Definition request_keys : list string :=
  ["cart_items"; "currency"; "product_id"; "color"; "size"; "quantity"].

(** States reached from the empty cart by actions whose [HYDRATE] payloads
    themselves hold at most one line item per variant. *)
Inductive reachable : list CartItem → Prop :=
| reachable_init : reachable []
| reachable_step state action :
    reachable state →
    (∀ payload, action = HYDRATE payload → unique_variants payload) →
    reachable (cartReducer state action).

(** ** Sample data *)

Definition tee (qty : Z) (name : string) (price : Z) (cur : string) : CartItem :=
  mkCartItem "p1" name price cur "/img/p1.png" (Some "Black") (Some "M") qty.

Definition mug : CartItem :=
  mkCartItem "p2" "Mug" 7 "EUR" "/img/p2.png" None None 1.

Definition priced (cur : string) (id : string) : CartItem :=
  mkCartItem id "Item" 5 cur "/img/item.png" None None 1.

(** ** Cart session manager: derived values and operations (types.ts) *)

(** [items.reduce((sum, item) => sum + item.quantity, 0)] *)
Definition itemCount (l : list CartItem) : Z :=
  foldl (λ sum item, sum + quantity item) 0 l.

(** The unit count of [l] is computed exactly: no quantity is negative and
    the total is a safe integer, so that every partial sum is one. *)
Definition exact_count (l : list CartItem) : Prop :=
  Forall (λ item, 0 ≤ quantity item) l ∧ itemCount l ≤ 2 ^ 53.

(** The action each operation of the context dispatches. *)
Definition addItem (item : CartItem) : CartAction := ADD_ITEM item.

Definition removeItem (productId : string) (color size : option string)
  : CartAction :=
  REMOVE_ITEM (mkRemove productId color size).

Definition updateQuantity (productId : string) (color size : option string)
    (quantity : Z) : CartAction :=
  UPDATE_QUANTITY (mkUpdate productId color size quantity).

Definition clearCart : CartAction := CLEAR_CART.

(** How the effect run on mount ends: reading [length] of [null] throws;
    otherwise it dispatches a [HYDRATE] with what [loadCart] returned, or
    nothing. *)
Inductive MountOutcome :=
| MountThrows
| MountIdle
| MountHydrates (payload : json).

Section MountEffect.

Variable JSON_parse : string → option json.

(** [v > 0] for the value [v] of a [length] member of an object, by the
    platform's conversion to a number. *)
Variable js_positive : json → bool.

(** [stored.length > 0]; [None] where reading the member throws. An array
    and a string have their own length, a number and a boolean have none,
    an object has the member it was parsed with. *)
Definition length_positive (stored : json) : option bool :=
  match stored with
  | JNull => None
  | JArr elems => Some (if elems is [] then false else true)
  | JStr s => Some (truthy s)
  | JObj _ =>
      Some (match json_get "length" stored with
            | Some len => js_positive len
            | None => false
            end)
  | JBool _ | JNum _ => Some false
  end.

(** [const stored = loadCart(); if (stored.length > 0) dispatch(HYDRATE)] *)
Definition hydration_effect (st : LocalStorage) : MountOutcome :=
  let stored := loadCart JSON_parse st in
  match length_positive stored with
  | None => MountThrows
  | Some true => MountHydrates stored
  | Some false => MountIdle
  end.

End MountEffect.

(** ** The controls of a cart line (CartItem.tsx, CartDrawer.tsx) *)

Module CartLine.

(** The minus button; it is disabled when [item.quantity <= 1]. *)
Definition decrease (item : CartItem) : option CartAction :=
  if bool_decide (quantity item ≤ 1) then None
  else Some (updateQuantity (item_productId item) (item_color item)
               (item_size item) (quantity item - 1)).

(** The plus button. *)
Definition increase (item : CartItem) : CartAction :=
  updateQuantity (item_productId item) (item_color item) (item_size item)
    (quantity item + 1).

(** The remove button. *)
Definition remove (item : CartItem) : CartAction :=
  removeItem (item_productId item) (item_color item) (item_size item).

End CartLine.

(** ** Add to cart (AddToCartButton.tsx) *)

(** The members of [interface Product] that the button reads. *)
Record Product := mkProduct {
  product_id : string;
  product_name : string;
  product_price : Z;
  product_currency : string;
  image_url : string;
  images : list string;
  colors : list string;
  sizes_available : list string;
  standalone_item : option bool
}.

Module AddToCartButton.

(** [availableStock > 0 ? availableStock : 1] *)
Definition maxQty (availableStock : Z) : Z :=
  if bool_decide (availableStock > 0) then availableStock else 1.

(** [Math.min(quantity, maxQty)] *)
Definition adjustedQty (quantity availableStock : Z) : Z :=
  Z.min quantity (maxQty availableStock).

(** The two buttons of the quantity selector. *)
Inductive Press := Minus | Plus.

(** A press, with the stock of the variant selected at that moment; a
    disabled button does nothing. *)
Definition press (quantity : Z) (p : Press * Z) : Z :=
  match p with
  | (Minus, _) =>
      if bool_decide (quantity ≤ 1) then quantity else Z.max 1 (quantity - 1)
  | (Plus, availableStock) =>
      if bool_decide (maxQty availableStock ≤ quantity) then quantity
      else Z.min (maxQty availableStock) (quantity + 1)
  end.

(** The [quantity] state after a series of presses; [useState(1)]. *)
Definition selected_quantity (presses : list (Press * Z)) : Z :=
  foldl press 1 presses.

(** [product.image_url || product.images?.[0] || ''] *)
Definition image_of (product : Product) : string :=
  if truthy (image_url product) then image_url product
  else match images product with
       | first :: _ => if truthy first then first else EmptyString
       | [] => EmptyString
       end.

(** A selection that is [null] or empty is falsy. *)
Definition selected (selection : option string) : bool :=
  match selection with
  | Some s => truthy s
  | None => false
  end.

(** [handleAdd]: the validation message, or the item passed to [addItem]. *)
Definition handleAdd (product : Product) (selectedColor selectedSize : option string)
    (quantity availableStock : Z) : string + CartItem :=
  let isStandalone := bool_decide (standalone_item product = Some true) in
  let hasColors := negb isStandalone && negb (if colors product is [] then true else false) in
  let hasSizes := negb isStandalone
                  && negb (if sizes_available product is [] then true else false) in
  if negb isStandalone && hasColors && negb (selected selectedColor)
  then inl "Please select a color."
  else if negb isStandalone && hasSizes && negb (selected selectedSize)
  then inl "Please select a size."
  else inr (mkCartItem (product_id product) (product_name product)
              (product_price product) (product_currency product)
              (image_of product) selectedColor selectedSize
              (adjustedQty quantity availableStock)).

End AddToCartButton.

(** ** What the storefront dispatches *)

(** The actions the components dispatch on a given cart: an Add from the
    product page (its button is disabled when the stock is 0), the controls
    of a line that is shown, and the Clear after a checkout. *)
Inductive ui_dispatch (state : list CartItem) : CartAction → Prop :=
| ui_add product selectedColor selectedSize presses availableStock item :
    availableStock ≠ 0 →
    AddToCartButton.handleAdd product selectedColor selectedSize
      (AddToCartButton.selected_quantity presses) availableStock = inr item →
    ui_dispatch state (addItem item)
| ui_increase item :
    item ∈ state → ui_dispatch state (CartLine.increase item)
| ui_decrease item action :
    item ∈ state → CartLine.decrease item = Some action →
    ui_dispatch state action
| ui_remove item :
    item ∈ state → ui_dispatch state (CartLine.remove item)
| ui_clear : ui_dispatch state clearCart.

(** The carts reached from the empty one by such actions. *)
Inductive ui_reachable : list CartItem → Prop :=
| ui_reachable_init : ui_reachable []
| ui_reachable_step state action :
    ui_reachable state → ui_dispatch state action →
    ui_reachable (cartReducer state action).

(** ** API client (client.ts) *)

(** A response of the commerce API; [api_body] is what [response.json()]
    resolves to, at the type asserted for it, or the exception it rejects
    with. *)
Record ApiResponse := mkApiResponse {
  api_ok : bool;
  api_status : Z;
  api_statusText : string;
  api_body : Thrown + ResponseBody
}.

Inductive ApiOutcome :=
| ApiRejected (err : Thrown)
| ApiResponded (response : ApiResponse).

(** JavaScript truthiness of a value. *)
Definition js_truthy (v : json) : bool :=
  match v with
  | JNull => false
  | JBool b => b
  | JNum n => negb (n =? 0)
  | JStr s => truthy s
  | JArr _ | JObj _ => true
  end.

Module SpensitAPIClient.

Section Request.

(** [String(error)] of a thrown value that is not an [Error]. *)
Variable String_of_thrown : string.

(** [request]: the body of an ok response, or an [Error] whose message
    names the client. *)
Definition request (endpoint : string) (net : ApiOutcome)
  : Thrown + ResponseBody :=
  let attempt : Thrown + ResponseBody :=
    match net with
    | ApiRejected err => inl err
    | ApiResponded response =>
        if negb (api_ok response) then
          let errorBody :=
            match api_body response with inr b => b | inl _ => empty_body end in
          let message :=
            or_else (error errorBody)
              ("API Error: " +:+ pretty (api_status response) +:+ " "
               +:+ api_statusText response) in
          inl (ErrorObject ("[SpensitAPI " +:+ pretty (api_status response)
                            +:+ "] " +:+ message))
        else api_body response
    end in
  match attempt with
  | inr result => inr result
  | inl (ErrorObject message) =>
      if String.prefix "[SpensitAPI" message then inl (ErrorObject message)
      else inl (ErrorObject ("[SpensitAPI] Request to " +:+ endpoint
                             +:+ " failed: " +:+ message))
  | inl OtherValue =>
      inl (ErrorObject ("[SpensitAPI] Request to " +:+ endpoint
                        +:+ " failed: " +:+ String_of_thrown))
  end.

End Request.

(** The body [createCheckout] posts: [currency] is set only when truthy. *)
Definition createCheckout_payload (cartItems : list json)
    (currency : option json) : json :=
  js_object [("cart_items", Some (JArr cartItems));
             ("currency",
              match currency with
              | Some c => if js_truthy c then Some c else None
              | None => None
              end)].

End SpensitAPIClient.

(** ** The checkout route (app/api/checkout/route.ts) *)

Module CheckoutRoute.

(** What the route did: the body it posted to the API, if it called it,
    and the response it returned. *)
Record Result := mkResult {
  forwarded : option json;
  response : Response
}.

(** [NextResponse.json(body, { status })] *)
Definition json_response (body : ResponseBody) (status : Z) : Response :=
  mkResponse (bool_decide (200 ≤ status ≤ 299)) status (inr body).

Definition error_response (message : string) (status : Z) : Response :=
  json_response (mkBody (Some message) (mkData None None None)) status.

(** [v && Array.isArray(v) && v.length > 0] *)
Definition nonempty_array (v : option json) : option (list json) :=
  match v with
  | Some (JArr (e :: es)) => Some (e :: es)
  | _ => None
  end.

(** The cart item made of a legacy product id. *)
Definition legacy_item (id : json) : json :=
  JObj [("product_id", id); ("color", JNull); ("size", JNull);
        ("quantity", JNum 1)].

(** [error instanceof Error ? error.message : 'Checkout failed'] *)
Definition route_message (err : Thrown) : string :=
  match err with
  | ErrorObject message => message
  | OtherValue => "Checkout failed"
  end.

Definition missing_items : string :=
  "cart_items or product_ids is required and must be a non-empty array.".

(** The message of the [TypeError] of reading a member of [null], as Node
    words it. *)
Definition null_body_error : string :=
  "Cannot read properties of null (reading 'cart_items')".

Section Route.

Variable String_of_thrown : string.

(** [POST]: [request_json] is what [request.json()] resolves to or rejects
    with, [net] how the call to the API ends if it is made. *)
Definition POST (request_json : Thrown + json) (net : ApiOutcome) : Result :=
  let forward (body : json) (cartItems : list json) : Result :=
    let payload :=
      SpensitAPIClient.createCheckout_payload cartItems (json_get "currency" body) in
    match SpensitAPIClient.request String_of_thrown "/api/checkout" net with
    | inr result => mkResult (Some payload) (json_response result 200)
    | inl err => mkResult (Some payload) (error_response (route_message err) 500)
    end in
  match request_json with
  | inl err => mkResult None (error_response (route_message err) 500)
  | inr JNull => mkResult None (error_response null_body_error 500)
  | inr body =>
      match nonempty_array (json_get "cart_items" body) with
      | Some cartItems => forward body cartItems
      | None =>
          match nonempty_array (json_get "product_ids" body) with
          | Some ids => forward body (legacy_item <$> ids)
          | None => mkResult None (error_response missing_items 400)
          end
      end
  end.

(** A click whose request is served by the route. *)
Definition click_through (site : CallSite) (s : Session) (net : ApiOutcome)
  : Session :=
  click (handler_of site) s
    (Responded (response (POST (inr (request_of site (items s))) net))).

End Route.

End CheckoutRoute.

(** ** The checkout controls *)

(** The checkout button of a call site can be pressed. The button of the
    checkout page is disabled while loading and for an empty cart; the
    drawer shows its footer only for a cart that is not empty and disables
    the button while loading. *)
Definition can_checkout (s : Session) : bool :=
  negb (loading s) && negb (if items s is [] then true else false).

(** "Try again" is shown with the error, which is shown when it is not
    empty; in the drawer both sit in the footer. *)
Definition can_retry (site : CallSite) (s : Session) : bool :=
  let shown := match errorShown s with Some message => truthy message | None => false end in
  match site with
  | Button => shown
  | Drawer => shown && negb (if items s is [] then true else false)
  end.

(** The session while the request is in flight: the handler has run up to
    its [await fetch]. *)
Definition in_flight (site : CallSite) (s : Session) : Session :=
  foldl perform s [SetLoading true; SetError None;
                   Fetch "/api/checkout" (request_of site (items s))].

(** ** A reference JSON codec

    A concrete serializer and parser for [json], standing in for the
    platform's when a serializable cart is exhibited. Text is written
    without white space; strings escape the quote and the backslash. *)

Definition dquote : ascii := ascii_of_nat 34.
Definition backslash : ascii := ascii_of_nat 92.

Fixpoint escape (s : string) : string :=
  match s with
  | EmptyString => EmptyString
  | String c rest =>
      if bool_decide (c = dquote) || bool_decide (c = backslash)
      then String backslash (String c (escape rest))
      else String c (escape rest)
  end.

Definition quoted (s : string) : string :=
  String dquote (escape s +:+ String dquote EmptyString).

Fixpoint write_json (j : json) : string :=
  match j with
  | JNull => "null"
  | JBool true => "true"
  | JBool false => "false"
  | JNum n => pretty n
  | JStr s => quoted s
  | JArr elems => "[" +:+ String.concat "," (map write_json elems) +:+ "]"
  | JObj members =>
      "{" +:+ String.concat ","
                (map (λ '(k, v), quoted k +:+ ":" +:+ write_json v) members)
          +:+ "}"
  end.

(** [strip p s]: what follows the prefix [p] of [s]. *)
Fixpoint strip (p s : string) : option string :=
  match p, s with
  | EmptyString, _ => Some s
  | String a p', String b s' => if bool_decide (a = b) then strip p' s' else None
  | String _ _, EmptyString => None
  end.

(** The characters up to the closing quote, unescaped, and the rest. *)
Fixpoint read_string (s : string) : option (string * string) :=
  match s with
  | EmptyString => None
  | String c rest =>
      if bool_decide (c = dquote) then Some (EmptyString, rest)
      else if bool_decide (c = backslash) then
        match rest with
        | String c' rest' =>
            '(content, r) ← read_string rest'; Some (String c' content, r)
        | EmptyString => None
        end
      else '(content, r) ← read_string rest; Some (String c content, r)
  end.

Definition digit_of (c : ascii) : option Z :=
  let n := nat_of_ascii c in
  if (48 <=? n)%nat && (n <=? 57)%nat then Some (Z.of_nat n - 48) else None.

(** The digits at the head of [s], added to [acc]; [seen] tells whether a
    digit has been read. *)
Fixpoint read_digits (seen : bool) (acc : Z) (s : string) : option (Z * string) :=
  match s with
  | String c rest =>
      match digit_of c with
      | Some d => read_digits true (10 * acc + d) rest
      | None => if seen then Some (acc, s) else None
      end
  | EmptyString => if seen then Some (acc, s) else None
  end.

Fixpoint read_value (fuel : nat) (s : string) : option (json * string) :=
  match fuel with
  | O => None
  | S fuel' =>
      match s with
      | EmptyString => None
      | String c rest =>
          if bool_decide (c = "n"%char) then (JNull,.) <$> strip "ull" rest
          else if bool_decide (c = "t"%char) then (JBool true,.) <$> strip "rue" rest
          else if bool_decide (c = "f"%char) then (JBool false,.) <$> strip "alse" rest
          else if bool_decide (c = dquote) then
            '(str, r) ← read_string rest; Some (JStr str, r)
          else if bool_decide (c = "["%char) then
            match strip "]" rest with
            | Some r => Some (JArr [], r)
            | None => '(elems, r) ← read_elems fuel' rest; Some (JArr elems, r)
            end
          else if bool_decide (c = "{"%char) then
            match strip "}" rest with
            | Some r => Some (JObj [], r)
            | None => '(members, r) ← read_members fuel' rest; Some (JObj members, r)
            end
          else if bool_decide (c = "-"%char) then
            '(n, r) ← read_digits false 0 rest; Some (JNum (- n), r)
          else '(n, r) ← read_digits false 0 s; Some (JNum n, r)
      end
  end
with read_elems (fuel : nat) (s : string) : option (list json * string) :=
  match fuel with
  | O => None
  | S fuel' =>
      '(v, r) ← read_value fuel' s;
      match r with
      | String c r' =>
          if bool_decide (c = ","%char) then
            '(vs, r'') ← read_elems fuel' r'; Some (v :: vs, r'')
          else if bool_decide (c = "]"%char) then Some ([v], r')
          else None
      | EmptyString => None
      end
  end
with read_members (fuel : nat) (s : string)
  : option (list (string * json) * string) :=
  match fuel with
  | O => None
  | S fuel' =>
      after_quote ← strip (String dquote EmptyString) s;
      '(k, r0) ← read_string after_quote;
      r1 ← strip ":" r0;
      '(v, r) ← read_value fuel' r1;
      match r with
      | String c r' =>
          if bool_decide (c = ","%char) then
            '(ms, r'') ← read_members fuel' r'; Some ((k, v) :: ms, r'')
          else if bool_decide (c = "}"%char) then Some ([(k, v)], r')
          else None
      | EmptyString => None
      end
  end.

Definition parse_json (text : string) : option json :=
  match read_value (2 * String.length text + 2) text with
  | Some (v, EmptyString) => Some v
  | _ => None
  end.

Definition sample_cart : list CartItem := [tee 3 "Tee" 10 "USD"; mug].

Example parse_write_sample_cart :
  parse_json (write_json (cart_value sample_cart)) = Some (cart_value sample_cart).
Proof. vm_compute. reflexivity. Qed.

(** * Properties *)

(** ** Variant identity and [findIndex] *)

Lemma isSameVariant_true `{Variant A, Variant B} (a : A) (b : B) :
  isSameVariant a b = true ↔ variant_of a = variant_of b.
Proof.
  unfold isSameVariant, variant_of.
  rewrite !andb_true_iff, !bool_decide_eq_true. split.
  - intros [[-> ->] ->]. reflexivity.
  - intros [= -> -> ->]. auto.
Qed.

Lemma isSameVariant_false `{Variant A, Variant B} (a : A) (b : B) :
  isSameVariant a b = false ↔ variant_of a ≠ variant_of b.
Proof.
  rewrite <- isSameVariant_true. destruct (isSameVariant a b); split; congruence.
Qed.

Lemma variant_of_with_quantity q (item : CartItem) :
  variant_of (with_quantity q item) = variant_of item.
Proof. reflexivity. Qed.

Lemma with_quantity_same (item : CartItem) :
  with_quantity (quantity item) item = item.
Proof. destruct item; reflexivity. Qed.

Lemma findIndex_None {A} (p : A → bool) (l : list A) :
  findIndex p l = None ↔ Forall (λ x, p x = false) l.
Proof.
  induction l as [|x l IH]; simpl.
  - split; auto.
  - destruct (p x) eqn:Hx.
    + split; [discriminate|]. intros Hall. inversion Hall; congruence.
    + rewrite fmap_None, IH. split.
      * intros Hl. constructor; assumption.
      * intros Hall. inversion Hall; assumption.
Qed.

Lemma findIndex_Some {A} (p : A → bool) (l : list A) (i : nat) :
  findIndex p l = Some i →
  ∃ pre x post, l = pre ++ x :: post ∧ length pre = i ∧ p x = true
                ∧ Forall (λ y, p y = false) pre.
Proof.
  revert i. induction l as [|x l IH]; simpl; intros i Hi; [discriminate|].
  destruct (p x) eqn:Hx.
  - injection Hi as <-. exists [], x, l. auto.
  - apply fmap_Some in Hi as (j & Hj & ->).
    destruct (IH j Hj) as (pre & y & post & -> & Hlen & Hy & Hpre).
    exists (x :: pre), y, post. simpl. repeat split; auto.
Qed.

Lemma findIndex_app_first {A} (p : A → bool) (pre post : list A) (x : A) :
  Forall (λ y, p y = false) pre → p x = true →
  findIndex p (pre ++ x :: post) = Some (length pre).
Proof.
  intros Hpre Hx. induction Hpre as [|y pre Hy _ IH]; simpl.
  - rewrite Hx. reflexivity.
  - rewrite Hy, IH. reflexivity.
Qed.

(** ** The [ADD_ITEM] case in closed form *)

Lemma add_absent (state : list CartItem) (payload : CartItem) :
  Forall (λ item, isSameVariant item payload = false) state →
  cartReducer state (ADD_ITEM payload) = state ++ [payload].
Proof.
  intros Habs. simpl.
  apply (findIndex_None (λ item, isSameVariant item payload)) in Habs.
  rewrite Habs. reflexivity.
Qed.

Lemma add_present (pre post : list CartItem) (cur payload : CartItem) :
  Forall (λ item, isSameVariant item payload = false) pre →
  isSameVariant cur payload = true →
  cartReducer (pre ++ cur :: post) (ADD_ITEM payload)
  = pre ++ with_quantity (quantity cur + quantity payload) cur :: post.
Proof.
  intros Hpre Hcur. simpl.
  rewrite (findIndex_app_first (λ item, isSameVariant item payload)) by assumption.
  rewrite list_lookup_middle by reflexivity.
  rewrite insert_app_r_alt by lia.
  replace (length pre - length pre)%nat with 0%nat by lia. reflexivity.
Qed.

(** Every state is either free of the payload's variant or splits at its
    first line item of that variant. *)
Lemma split_at_variant (state : list CartItem) (payload : CartItem) :
  Forall (λ item, isSameVariant item payload = false) state
  ∨ ∃ pre cur post, state = pre ++ cur :: post
      ∧ Forall (λ item, isSameVariant item payload = false) pre
      ∧ isSameVariant cur payload = true.
Proof.
  destruct (findIndex (λ item, isSameVariant item payload) state) as [i|] eqn:Hi.
  - right. apply findIndex_Some in Hi as (pre & x & post & -> & _ & Hx & Hpre).
    exists pre, x, post. auto.
  - left. apply findIndex_None in Hi. assumption.
Qed.

(** ** Counting the line items of a variant *)

Lemma occurrences_app `{Variant B} (b : B) (l1 l2 : list CartItem) :
  occurrences b (l1 ++ l2) = (occurrences b l1 + occurrences b l2)%nat.
Proof. unfold occurrences. rewrite filter_app, length_app. reflexivity. Qed.

Lemma occurrences_cons `{Variant B} (b : B) (x : CartItem) (l : list CartItem) :
  occurrences b (x :: l)
  = ((if isSameVariant x b then 1 else 0) + occurrences b l)%nat.
Proof.
  unfold occurrences. rewrite filter_cons.
  destruct (decide (isSameVariant x b = true)) as [Hx|Hx].
  - rewrite Hx. reflexivity.
  - apply not_true_is_false in Hx. rewrite Hx. reflexivity.
Qed.

Lemma occurrences_zero `{Variant B} (b : B) (l : list CartItem) :
  occurrences b l = 0%nat ↔ Forall (λ item, isSameVariant item b = false) l.
Proof.
  induction l as [|x l IH].
  - split; [constructor | reflexivity].
  - rewrite occurrences_cons. destruct (isSameVariant x b) eqn:Hx.
    + split; [discriminate|]. intros Hall. inversion Hall; congruence.
    + simpl. rewrite IH. split.
      * intros Hl. constructor; assumption.
      * intros Hall. inversion Hall; assumption.
Qed.

Lemma isSameVariant_with_quantity `{Variant B} q (item : CartItem) (b : B) :
  isSameVariant (with_quantity q item) b = isSameVariant item b.
Proof. reflexivity. Qed.

Lemma isSameVariant_congr (item a b : CartItem) :
  variant_of a = variant_of b → isSameVariant item a = isSameVariant item b.
Proof.
  intros Hab. destruct (isSameVariant item b) eqn:Hb.
  - apply isSameVariant_true. apply isSameVariant_true in Hb. congruence.
  - apply isSameVariant_false. apply isSameVariant_false in Hb. congruence.
Qed.

(** ** Sequences of [ADD_ITEM] for one variant *)

Lemma with_quantity_twice q1 q2 (item : CartItem) :
  with_quantity q2 (with_quantity q1 item) = with_quantity q2 item.
Proof. reflexivity. Qed.

(** Once the variant has a line item, further Adds only raise its quantity. *)
Lemma adds_onto_present (adds pre post : list CartItem) (cur first : CartItem) :
  Forall (λ a, variant_of a = variant_of first) adds →
  Forall (λ item, isSameVariant item first = false) pre →
  isSameVariant cur first = true →
  dispatch_all (pre ++ cur :: post) (ADD_ITEM <$> adds)
  = pre ++ with_quantity (quantity cur + total_quantity adds) cur :: post.
Proof.
  intros Hadds Hpre. revert cur.
  induction Hadds as [|a adds Ha _ IH]; intros cur Hcur.
  - simpl. rewrite Z.add_0_r, with_quantity_same. reflexivity.
  - unfold dispatch_all in IH |- *. cbn [fmap list_fmap foldl].
    rewrite add_present.
    + rewrite IH by (rewrite isSameVariant_with_quantity; assumption).
      rewrite with_quantity_twice. cbn [quantity with_quantity].
      change (total_quantity (a :: adds)) with (quantity a + total_quantity adds).
      rewrite Z.add_assoc. reflexivity.
    + eapply Forall_impl; [exact Hpre|]. intros item Hitem. simpl in Hitem.
      rewrite (isSameVariant_congr item a first Ha). assumption.
    + rewrite (isSameVariant_congr cur a first Ha). assumption.
Qed.

Lemma isSameVariant_refl (a : CartItem) : isSameVariant a a = true.
Proof. apply isSameVariant_true. reflexivity. Qed.

(** C1 as stated fails when the variant is already in the list: the stored
    line item keeps its own name, price, image and currency, and its
    quantity is the stored quantity plus the added one, not the sum of the
    added quantities alone. *)
Lemma add_to_stored_variant_counterexample :
  let stored := tee 5 "Stored tee" 10 "USD" in
  let added := tee 2 "New tee" 999 "EUR" in
  (occurrences added [stored] ≤ 1)%nat
  ∧ dispatch_all [stored] [ADD_ITEM added] = [tee 7 "Stored tee" 10 "USD"]
  ∧ ¬ ∃ entry,
        filter (λ item, isSameVariant item added = true)
               (dispatch_all [stored] [ADD_ITEM added]) = [entry]
        ∧ quantity entry = total_quantity [added]
        ∧ item_name entry = item_name added
        ∧ item_price entry = item_price added
        ∧ item_currency entry = item_currency added.
Proof.
  cbv zeta. split; [vm_compute; lia|]. split; [reflexivity|].
  intros (entry & Hentry & Hq & _). vm_compute in Hentry.
  injection Hentry as <-. vm_compute in Hq. discriminate.
Qed.

(** C1, amended. A non-empty sequence of Adds of one variant leaves exactly
    one line item of that variant in a list that held at most one. Where
    the variant was absent, the line item is the first Add, appended at the
    end; where it was present, the stored line item stays in place with its
    own name, price, image and currency. All other entries keep their
    values and their order. As long as the sums stay within the safe
    integers, the quantity of the line item is the sum of the added
    quantities where the variant was absent, and the stored quantity plus
    that sum where it was present. *)
Theorem add_sequence_deduplicates
    (state : list CartItem) (first : CartItem) (rest : list CartItem) :
  Forall (λ a, variant_of a = variant_of first) rest →
  let result := dispatch_all state (ADD_ITEM <$> first :: rest) in
  (occurrences first state = 0%nat →
     sums_exact (quantity first) (quantity <$> rest) →
     result = state ++ [with_quantity (total_quantity (first :: rest)) first])
  ∧ (∀ pre cur post,
       state = pre ++ cur :: post →
       occurrences first pre = 0%nat →
       isSameVariant cur first = true →
       sums_exact (quantity cur) (quantity <$> first :: rest) →
       result = pre ++ with_quantity
                         (quantity cur + total_quantity (first :: rest)) cur
                    :: post)
  ∧ ((occurrences first state ≤ 1)%nat →
     occurrences first result = 1%nat
     ∧ ∃ pre entry post,
         result = pre ++ entry :: post
         ∧ ((occurrences first state = 0%nat ∧ pre = state ∧ post = []
             ∧ with_quantity (quantity entry) first = entry)
            ∨ (∃ cur, state = pre ++ cur :: post ∧ isSameVariant cur first = true
                      ∧ with_quantity (quantity entry) cur = entry))).
Proof.
  intros Hrest result.
  assert (Hall : Forall (λ a, variant_of a = variant_of first) (first :: rest))
    by (constructor; [reflexivity | assumption]).
  assert (Habsent : occurrences first state = 0%nat →
            result = state ++ [with_quantity (total_quantity (first :: rest)) first]).
  { intros Hzero. apply occurrences_zero in Hzero. subst result.
    unfold dispatch_all. cbn [fmap list_fmap foldl].
    rewrite add_absent by assumption.
    fold (dispatch_all (state ++ [first]) (ADD_ITEM <$> rest)).
    rewrite (adds_onto_present rest state [] first first)
      by (auto using isSameVariant_refl).
    reflexivity. }
  assert (Hpresent : ∀ pre cur post,
            state = pre ++ cur :: post →
            occurrences first pre = 0%nat →
            isSameVariant cur first = true →
            result = pre ++ with_quantity
                              (quantity cur + total_quantity (first :: rest)) cur
                         :: post).
  { intros pre cur post -> Hpre Hcur. apply occurrences_zero in Hpre.
    subst result. apply (adds_onto_present _ _ _ _ first); assumption. }
  split; [intros Hzero _; exact (Habsent Hzero)|].
  split; [intros pre cur post Hstate Hpre Hcur _; exact (Hpresent pre cur post Hstate Hpre Hcur)|].
  intros Hmost.
  destruct (split_at_variant state first)
    as [Hnone | (pre & cur & post & Hstate & Hpre & Hcur)].
  - apply occurrences_zero in Hnone. rewrite (Habsent Hnone). split.
    + rewrite occurrences_app, Hnone, occurrences_cons.
      rewrite isSameVariant_with_quantity, isSameVariant_refl. reflexivity.
    + exists state, (with_quantity (total_quantity (first :: rest)) first), [].
      split; [reflexivity|]. left. auto.
  - apply occurrences_zero in Hpre.
    rewrite (Hpresent pre cur post Hstate Hpre Hcur). split.
    + rewrite Hstate in Hmost.
      rewrite occurrences_app, occurrences_cons, Hcur in Hmost.
      rewrite occurrences_app, occurrences_cons, isSameVariant_with_quantity, Hcur.
      lia.
    + exists pre, (with_quantity (quantity cur + total_quantity (first :: rest)) cur), post.
      split; [reflexivity|]. right. exists cur. auto.
Qed.

Lemma add_sequence_deduplicates_witness :
  dispatch_all [mug] [ADD_ITEM (tee 1 "Tee" 10 "USD"); ADD_ITEM (tee 2 "Tee" 999 "EUR")]
  = [mug; tee 3 "Tee" 10 "USD"]
  ∧ dispatch_all [tee 5 "Stored tee" 10 "USD"; mug]
      [ADD_ITEM (tee 1 "Tee" 12 "USD"); ADD_ITEM (tee 2 "Tee" 999 "EUR")]
    = [tee 8 "Stored tee" 10 "USD"; mug].
Proof.
  split.
  - destruct (add_sequence_deduplicates [mug] (tee 1 "Tee" 10 "USD")
                [tee 2 "Tee" 999 "EUR"]) as (Habsent & _).
    + repeat constructor.
    + apply Habsent; [reflexivity|].
      unfold sums_exact, safe_integer. simpl. lia.
  - destruct (add_sequence_deduplicates [tee 5 "Stored tee" 10 "USD"; mug]
                (tee 1 "Tee" 12 "USD") [tee 2 "Tee" 999 "EUR"])
      as (_ & Hpresent & _).
    + repeat constructor.
    + apply (Hpresent [] (tee 5 "Stored tee" 10 "USD") [mug]);
        [reflexivity | reflexivity | reflexivity |].
      unfold sums_exact, safe_integer. simpl. lia.
Defined.

(** ** [UPDATE_QUANTITY] and [REMOVE_ITEM] *)

Lemma update_lookup (state : list CartItem) (p : UpdatePayload) (i : nat) :
  cartReducer state (UPDATE_QUANTITY p) !! i
  = (λ item, if isSameVariant item p
             then with_quantity (Z.max 1 (up_quantity p)) item
             else item) <$> state !! i.
Proof. simpl. apply list_lookup_fmap. Qed.

Lemma update_absent (state : list CartItem) (p : UpdatePayload) :
  Forall (λ item, isSameVariant item p = false) state →
  cartReducer state (UPDATE_QUANTITY p) = state.
Proof.
  intros Habs. simpl. induction Habs as [|x l Hx _ IH]; [reflexivity|].
  cbn [fmap list_fmap] in *. rewrite Hx. f_equal. exact IH.
Qed.

Lemma remove_absent (state : list CartItem) (r : RemovePayload) :
  Forall (λ item, isSameVariant item r = false) state →
  cartReducer state (REMOVE_ITEM r) = state.
Proof.
  intros Habs. simpl. induction Habs as [|x l Hx _ IH]; [reflexivity|].
  rewrite filter_cons_True by (rewrite Hx; reflexivity).
  f_equal. exact IH.
Qed.

Lemma remove_leaves_none (state : list CartItem) (r : RemovePayload) :
  Forall (λ item, isSameVariant item r = false)
         (cartReducer state (REMOVE_ITEM r)).
Proof.
  simpl. apply Forall_forall. intros item Hin.
  apply list_elem_of_filter in Hin as [Hneg _].
  apply negb_true_iff in Hneg. exact Hneg.
Qed.

(** C10. [UPDATE_QUANTITY] gives every line item of the named variant the
    quantity [max(1, quantity)], which is 1 for a request of zero or less,
    keeps its other fields, leaves every other line item as it was, and
    changes nothing when the variant is absent. [REMOVE_ITEM] twice is
    [REMOVE_ITEM] once, and removing an absent variant changes nothing. *)
Theorem set_quantity_and_remove_laws (state : list CartItem) :
  (∀ (p : UpdatePayload) (i : nat) (item : CartItem),
     state !! i = Some item → isSameVariant item p = true →
     ∃ item', cartReducer state (UPDATE_QUANTITY p) !! i = Some item'
       ∧ quantity item' = Z.max 1 (up_quantity p)
       ∧ (up_quantity p ≤ 0 → quantity item' = 1)
       ∧ item' = with_quantity (quantity item') item)
  ∧ (∀ (p : UpdatePayload) (i : nat) (item : CartItem),
       state !! i = Some item → isSameVariant item p = false →
       cartReducer state (UPDATE_QUANTITY p) !! i = Some item)
  ∧ (∀ p : UpdatePayload,
       length (cartReducer state (UPDATE_QUANTITY p)) = length state)
  ∧ (∀ p : UpdatePayload,
       occurrences p state = 0%nat →
       cartReducer state (UPDATE_QUANTITY p) = state)
  ∧ (∀ r : RemovePayload,
       cartReducer (cartReducer state (REMOVE_ITEM r)) (REMOVE_ITEM r)
       = cartReducer state (REMOVE_ITEM r))
  ∧ (∀ r : RemovePayload,
       occurrences r state = 0%nat →
       cartReducer state (REMOVE_ITEM r) = state).
Proof.
  repeat split.
  - intros p i item Hi Hsame. rewrite update_lookup, Hi. cbn [fmap option_fmap option_map].
    rewrite Hsame. eexists. split; [reflexivity|]. cbn [quantity with_quantity].
    repeat split. lia.
  - intros p i item Hi Hdiff. rewrite update_lookup, Hi. cbn [fmap option_fmap option_map].
    rewrite Hdiff. reflexivity.
  - intros p. simpl. apply length_fmap.
  - intros p Hzero. apply update_absent, occurrences_zero, Hzero.
  - intros r. apply remove_absent, remove_leaves_none.
  - intros r Hzero. apply remove_absent, occurrences_zero, Hzero.
Qed.

Lemma set_quantity_and_remove_laws_witness :
  (∃ item', cartReducer sample_cart (UPDATE_QUANTITY (mkUpdate "p2" None None (-4))) !! 1%nat
            = Some item' ∧ quantity item' = 1)
  ∧ cartReducer sample_cart (UPDATE_QUANTITY (mkUpdate "p2" None None 6)) !! 0%nat
    = Some (tee 3 "Tee" 10 "USD")
  ∧ cartReducer sample_cart (UPDATE_QUANTITY (mkUpdate "p9" None None 6)) = sample_cart
  ∧ cartReducer sample_cart (REMOVE_ITEM (mkRemove "p9" None None)) = sample_cart.
Proof.
  destruct (set_quantity_and_remove_laws sample_cart)
    as (Hset & Hother & _ & Hnoop & _ & Habsent).
  split; [|split; [|split]].
  - destruct (Hset (mkUpdate "p2" None None (-4)) 1%nat mug)
      as (item' & Hitem' & _ & Hfloor & _); [reflexivity | reflexivity |].
    exists item'. split; [exact Hitem' | apply Hfloor; simpl; lia].
  - apply Hother; reflexivity.
  - apply Hnoop. reflexivity.
  - apply Habsent. reflexivity.
Defined.

(** ** The quantity floor *)




(** ** One line item per variant *)

Lemma variants_after_update (state : list CartItem) (p : UpdatePayload) :
  variant_of <$> cartReducer state (UPDATE_QUANTITY p) = variant_of <$> state.
Proof.
  simpl. rewrite <- list_fmap_compose. apply list_fmap_ext.
  intros i item _. unfold compose. destruct (isSameVariant item p); reflexivity.
Qed.

Lemma unique_variants_occurrences (state : list CartItem) :
  unique_variants state ↔ ∀ b : CartItem, (occurrences b state ≤ 1)%nat.
Proof.
  unfold unique_variants. induction state as [|x l IH].
  - split; [intros _ b; unfold occurrences; rewrite filter_nil; simpl; lia | constructor].
  - rewrite fmap_cons, NoDup_cons, IH. split.
    + intros [Hx Hl] b. rewrite occurrences_cons.
      destruct (isSameVariant x b) eqn:Hxb; [|apply Hl].
      enough (occurrences b l = 0%nat) by lia.
      apply occurrences_zero, Forall_forall. intros item Hin.
      apply isSameVariant_false. intros Heq. apply Hx.
      apply isSameVariant_true in Hxb. rewrite Hxb, <- Heq.
      apply list_elem_of_fmap. exists item. auto.
    + intros Hocc. split.
      * intros Hin. apply list_elem_of_fmap in Hin as (item & Heq & Hin).
        specialize (Hocc x). rewrite occurrences_cons, isSameVariant_refl in Hocc.
        assert (Hzero : occurrences x l = 0%nat) by lia.
        apply occurrences_zero in Hzero. rewrite Forall_forall in Hzero.
        specialize (Hzero item Hin). apply isSameVariant_false in Hzero.
        congruence.
      * intros b. specialize (Hocc b). rewrite occurrences_cons in Hocc. lia.
Qed.

(** C9 as stated fails for [HYDRATE]: the payload replaces the list as it
    is, duplicates included. *)
Lemma hydrate_duplicates_counterexample :
  unique_variants []
  ∧ cartReducer [] (HYDRATE [mug; mug]) = [mug; mug]
  ∧ ¬ unique_variants (cartReducer [] (HYDRATE [mug; mug]))
  ∧ occurrences mug (dispatch_all [] [HYDRATE [mug; mug]]) = 2%nat.
Proof.
  split; [constructor|]. split; [reflexivity|]. split; [|reflexivity].
  unfold unique_variants. simpl. intros Hdup.
  apply NoDup_cons in Hdup as [Hnotin _]. apply Hnotin. constructor.
Qed.

(** C9, amended. Two line items are the same variant exactly when their
    [productId], [color] and [size] are equal, [null] being equal to
    [null] only. Add, Remove, SetQuantity and Clear keep at most one line
    item per variant; Hydrate installs its payload as it is, so the cart
    after it has at most one line item per variant when the payload has.
    Hence every state reached from the empty cart by actions whose Hydrate
    payloads hold at most one line item per variant holds at most one line
    item per variant. *)
Theorem reducer_keeps_variants_unique :
  (∀ a b : CartItem,
     isSameVariant a b = true
     ↔ item_productId a = item_productId b ∧ item_color a = item_color b
       ∧ item_size a = item_size b)
  ∧ (∀ state action,
       unique_variants state →
       (∀ payload, action = HYDRATE payload → unique_variants payload) →
       unique_variants (cartReducer state action))
  ∧ (∀ state, reachable state →
       ∀ b : CartItem, (occurrences b state ≤ 1)%nat).
Proof.
  assert (Hstep : ∀ state action,
            unique_variants state →
            (∀ payload, action = HYDRATE payload → unique_variants payload) →
            unique_variants (cartReducer state action)).
  { intros state action Hstate Hhyd. unfold unique_variants in *.
    destruct action as [payload|r|p| |payload].
    - destruct (split_at_variant state payload)
        as [Hnone | (pre & cur & post & -> & Hpre & Hcur)].
      + rewrite add_absent by assumption. rewrite fmap_app.
        apply NoDup_app. split; [assumption|]. split; [|repeat constructor; apply not_elem_of_nil].
        intros v Hv Hv'. apply list_elem_of_singleton in Hv'. subst v.
        apply list_elem_of_fmap in Hv as (item & Heq & Hin).
        rewrite Forall_forall in Hnone. specialize (Hnone item Hin).
        apply isSameVariant_false in Hnone. congruence.
      + rewrite add_present by assumption.
        rewrite fmap_app, fmap_cons, variant_of_with_quantity.
        rewrite fmap_app, fmap_cons in Hstate. exact Hstate.
    - simpl. eapply sublist_NoDup; [exact Hstate|].
      apply fmap_sublist, sublist_filter.
    - rewrite variants_after_update. exact Hstate.
    - constructor.
    - apply Hhyd. reflexivity. }
  split; [|split; [exact Hstep|]].
  - intros a b. rewrite isSameVariant_true. unfold variant_of. simpl. split.
    + intros [= -> -> ->]. auto.
    + intros (-> & -> & ->). reflexivity.
  - intros state Hreach. apply unique_variants_occurrences.
    induction Hreach as [|state action _ IH Hhyd]; [constructor|].
    apply Hstep; assumption.
Qed.

Lemma reducer_keeps_variants_unique_witness :
  unique_variants (cartReducer sample_cart (ADD_ITEM (tee 2 "Tee" 999 "EUR")))
  ∧ ∀ b : CartItem,
      (occurrences b (cartReducer (cartReducer [] (HYDRATE sample_cart))
                        (ADD_ITEM (tee 2 "Tee" 999 "EUR"))) ≤ 1)%nat.
Proof.
  destruct reducer_keeps_variants_unique as (_ & Hstep & Hreach).
  assert (Hsample : unique_variants sample_cart).
  { unfold unique_variants. apply (bool_decide_unpack _). vm_compute. exact I. }
  split.
  - apply Hstep; [exact Hsample | intros payload Heq; discriminate Heq].
  - apply Hreach. constructor; [constructor; [constructor|] |].
    + intros payload [= <-]. exact Hsample.
    + intros payload Heq. discriminate Heq.
Defined.

(** ** The checkout request *)

(** Closed decidable goals are settled by evaluation. *)
Ltac by_evaluation := apply (bool_decide_unpack _); vm_compute; exact I.

(** Membership of a variable in a list of literals, by cases. *)
Ltac by_cases_on Hk :=
  repeat (apply elem_of_cons in Hk as [->|Hk]; [by_evaluation|]);
  inversion Hk.

Lemma json_keys_members (k : string) (v : json) (members : list (string * json)) :
  json_keys (JObj ((k, v) :: members))
  = k :: json_keys v ++ json_keys (JObj members).
Proof. reflexivity. Qed.

Lemma json_keys_nullable (s : option string) : json_keys (json_of_nullable s) = [].
Proof. destruct s; reflexivity. Qed.

Lemma json_keys_checkout_item (item : CartItem) :
  json_keys (checkout_item item) = ["product_id"; "color"; "size"; "quantity"].
Proof.
  unfold checkout_item. cbn [json_keys map concat].
  rewrite !json_keys_nullable. reflexivity.
Qed.

Lemma json_keys_cart_items (l : list CartItem) :
  Forall (λ k, k ∈ ["product_id"; "color"; "size"; "quantity"])
         (json_keys (JArr (checkout_item <$> l))).
Proof.
  cbn [json_keys]. induction l as [|item l IH]; [constructor|].
  cbn [fmap list_fmap map concat]. apply Forall_app. split; [|exact IH].
  rewrite json_keys_checkout_item. repeat (constructor; [by_evaluation|]).
  constructor.
Qed.

Lemma json_keys_checkout_request (l : list CartItem) (cur : option string) :
  Forall (λ k, k ∈ request_keys)
         (json_keys (checkout_request (checkout_item <$> l) cur)).
Proof.
  assert (Hitems : Forall (λ k, k ∈ request_keys)
                          (json_keys (JArr (checkout_item <$> l)))).
  { eapply Forall_impl; [apply json_keys_cart_items|].
    intros k Hk. cbv beta in Hk. by_cases_on Hk. }
  unfold checkout_request, js_object.
  destruct cur as [c|]; cbn [omap list_omap fmap option_fmap option_map];
    rewrite !json_keys_members.
  - constructor; [by_evaluation|].
    apply Forall_app. split; [exact Hitems|].
    repeat constructor.
  - constructor; [by_evaluation|].
    apply Forall_app. split; [exact Hitems | constructor].
Qed.

Lemma forbidden_not_request_key (k : string) :
  k ∈ forbidden_keys → k ∉ request_keys.
Proof.
  unfold forbidden_keys, request_keys. intros Hk Hk'.
  repeat (apply elem_of_cons in Hk as [->|Hk];
          [apply (bool_decide_pack _) in Hk'; vm_compute in Hk'; exact Hk'|]).
  inversion Hk.
Qed.

Lemma checkout_items_same_order_data (l l' : list CartItem) :
  Forall2 same_order_data l l' →
  checkout_item <$> l = checkout_item <$> l'
  ∧ item_currency <$> head l = item_currency <$> head l'.
Proof.
  intros Hrel. split.
  - induction Hrel as [|a b l l' (Hp & Hc & Hs & Hq & _) _ IH]; [reflexivity|].
    cbn [fmap list_fmap]. f_equal; [|exact IH].
    unfold checkout_item. rewrite Hp, Hc, Hs, Hq. reflexivity.
  - destruct Hrel as [|a b l l' (_ & _ & _ & _ & Hcur) _]; [reflexivity|].
    simpl. rewrite Hcur. reflexivity.
Qed.

(** C3. At both call sites the request consists of [cart_items], whose
    elements have exactly the members [product_id], [color], [size] and
    [quantity], and a top-level [currency]; no key at any depth is named
    [price], [subtotal], [total_price] or [vat]; and two carts that differ
    only in the name, price and image of their items give the same request. *)
Theorem checkout_request_is_price_free (l : list CartItem) :
  (∀ item, own_keys (checkout_item item) = ["product_id"; "color"; "size"; "quantity"])
  ∧ json_get "cart_items" (CheckoutButton.request l) = Some (JArr (checkout_item <$> l))
  ∧ json_get "cart_items" (CartDrawer.request l) = Some (JArr (checkout_item <$> l))
  ∧ own_keys (CheckoutButton.request l)
    = (if l is [] then ["cart_items"] else ["cart_items"; "currency"])
  ∧ own_keys (CartDrawer.request l) = ["cart_items"; "currency"]
  ∧ (∀ k, k ∈ json_keys (CheckoutButton.request l) ∨ k ∈ json_keys (CartDrawer.request l) →
       k ∈ request_keys ∧ k ∉ forbidden_keys)
  ∧ (∀ l', Forall2 same_order_data l l' →
       CheckoutButton.request l = CheckoutButton.request l'
       ∧ CartDrawer.request l = CartDrawer.request l').
Proof.
  split; [reflexivity|]. split; [destruct l; reflexivity|].
  split; [reflexivity|]. split; [destruct l; reflexivity|].
  split; [reflexivity|]. split.
  - intros k Hk.
    assert (Hreq : k ∈ request_keys).
    { destruct Hk as [Hk|Hk]; revert k Hk; apply Forall_forall;
        apply json_keys_checkout_request. }
    split; [exact Hreq|]. intros Hforb.
    exact (forbidden_not_request_key k Hforb Hreq).
  - intros l' Hrel. destruct (checkout_items_same_order_data l l' Hrel) as [Hitems Hcur].
    unfold CheckoutButton.request, CartDrawer.request,
      CheckoutButton.currency_hint, CartDrawer.displayCurrency.
    rewrite Hitems, Hcur. split; reflexivity.
Qed.

Lemma checkout_request_is_price_free_witness :
  CheckoutButton.request [tee 3 "Tee" 10 "USD"; mug]
  = CheckoutButton.request [tee 3 "Cheap tee" 1 "USD"; mug]
  ∧ CartDrawer.request [tee 3 "Tee" 10 "USD"; mug]
    = CartDrawer.request [tee 3 "Cheap tee" 1 "USD"; mug].
Proof.
  apply (checkout_request_is_price_free [tee 3 "Tee" 10 "USD"; mug]).
  repeat constructor.
Defined.

(** ** The handlers, case by case *)

Lemma present_Some (member : option string) (s : string) :
  present member = Some s ↔ member = Some s ∧ s ≠ EmptyString.
Proof.
  unfold present, truthy. destruct member as [m|]; [|split; [discriminate | intros [? _]; discriminate]].
  destruct (bool_decide_reflect (m = EmptyString)) as [Hm|Hm]; simpl.
  - split; [discriminate|]. intros [[= ->] Hs]. contradiction.
  - split.
    + intros [= ->]. auto.
    + intros [[= ->] _]. reflexivity.
Qed.

Section Handlers.

Variable l : list CartItem.

Lemma CheckoutButton_rejected (err : Thrown) :
  fst (CheckoutButton.handleCheckout l (Rejected err))
  = failed_attempt (CheckoutButton.request l) (message_of err).
Proof. reflexivity. Qed.

Lemma CartDrawer_rejected (err : Thrown) :
  fst (CartDrawer.handleCheckout l (Rejected err))
  = failed_attempt (CartDrawer.request l) (message_of err).
Proof. reflexivity. Qed.

Lemma CheckoutButton_not_ok (r : Response) :
  ok r = false →
  fst (CheckoutButton.handleCheckout l (Responded r))
  = failed_attempt (CheckoutButton.request l) (failure_message r).
Proof.
  intros Hok. unfold CheckoutButton.handleCheckout. simpl. rewrite Hok.
  reflexivity.
Qed.

Lemma CartDrawer_not_ok (r : Response) :
  ok r = false →
  fst (CartDrawer.handleCheckout l (Responded r))
  = failed_attempt (CartDrawer.request l) (failure_message r).
Proof.
  intros Hok. unfold CartDrawer.handleCheckout. simpl. rewrite Hok.
  reflexivity.
Qed.

Lemma CheckoutButton_unreadable (r : Response) (err : Thrown) :
  ok r = true → body r = inl err →
  fst (CheckoutButton.handleCheckout l (Responded r))
  = failed_attempt (CheckoutButton.request l) (message_of err).
Proof.
  intros Hok Hbody. unfold CheckoutButton.handleCheckout. simpl.
  rewrite Hok, Hbody. reflexivity.
Qed.

Lemma CartDrawer_unreadable (r : Response) (err : Thrown) :
  ok r = true → body r = inl err →
  fst (CartDrawer.handleCheckout l (Responded r))
  = failed_attempt (CartDrawer.request l) (message_of err).
Proof.
  intros Hok Hbody. unfold CartDrawer.handleCheckout. simpl.
  rewrite Hok, Hbody. reflexivity.
Qed.

Lemma CheckoutButton_unresolved (r : Response) (b : ResponseBody) (err : Thrown) :
  ok r = true → body r = inr b →
  CheckoutButton.redirectUrl (data b) = throw err →
  fst (CheckoutButton.handleCheckout l (Responded r))
  = failed_attempt (CheckoutButton.request l) (message_of err).
Proof.
  intros Hok Hbody Hurl. unfold CheckoutButton.handleCheckout. simpl.
  rewrite Hok, Hbody. simpl. rewrite Hurl. reflexivity.
Qed.

Lemma CartDrawer_unresolved (r : Response) (b : ResponseBody) (err : Thrown) :
  ok r = true → body r = inr b →
  CartDrawer.redirectUrl (data b) = throw err →
  fst (CartDrawer.handleCheckout l (Responded r))
  = failed_attempt (CartDrawer.request l) (message_of err).
Proof.
  intros Hok Hbody Hurl. unfold CartDrawer.handleCheckout. simpl.
  rewrite Hok, Hbody. simpl. rewrite Hurl. reflexivity.
Qed.

Lemma CheckoutButton_resolved (r : Response) (b : ResponseBody) (url : string) :
  ok r = true → body r = inr b →
  CheckoutButton.redirectUrl (data b) = mret url →
  fst (CheckoutButton.handleCheckout l (Responded r))
  = redirected_attempt (CheckoutButton.request l) [] url.
Proof.
  intros Hok Hbody Hurl. unfold CheckoutButton.handleCheckout. simpl.
  rewrite Hok, Hbody. simpl. rewrite Hurl. reflexivity.
Qed.

Lemma CartDrawer_resolved (r : Response) (b : ResponseBody) (url : string) :
  ok r = true → body r = inr b →
  CartDrawer.redirectUrl (data b) = mret url →
  fst (CartDrawer.handleCheckout l (Responded r))
  = redirected_attempt (CartDrawer.request l) [CloseDrawer] url.
Proof.
  intros Hok Hbody Hurl. unfold CartDrawer.handleCheckout. simpl.
  rewrite Hok, Hbody. simpl. rewrite Hurl. reflexivity.
Qed.

End Handlers.

(** ** Resolution of the redirect URL *)

Example scenario_C :
  CheckoutButton.redirectUrl (mkData None (Some "abc") (Some "xyz"))
  = mret "https://spenspay.spensit.com/tempcheckout/xyz/abc"
  ∧ CartDrawer.redirectUrl (mkData None (Some "abc") (Some "xyz"))
    = mret "https://spenspay.spensit.com/tempcheckout/xyz/abc".
Proof. split; reflexivity. Qed.

(** C4 as stated fails at the cart drawer, which never reads
    [checkout_url]: a response that carries only [checkout_url] fails
    there, and one that carries all three members is sent to the URL built
    from [brand_id] and [link_id]. *)
Lemma drawer_ignores_checkout_url_counterexample :
  let only_url := mkData (Some "https://pay.example/session/1") None None in
  let all_three :=
    mkData (Some "https://pay.example/session/1") (Some "abc") (Some "xyz") in
  let respond d := Responded (mkResponse true 200 (inr (mkBody None d))) in
  fst (CheckoutButton.handleCheckout sample_cart (respond only_url))
  = redirected_attempt (CheckoutButton.request sample_cart) []
      "https://pay.example/session/1"
  ∧ fst (CartDrawer.handleCheckout sample_cart (respond only_url))
    = failed_attempt (CartDrawer.request sample_cart)
        "No link_id returned from the checkout API."
  ∧ fst (CartDrawer.handleCheckout sample_cart (respond all_three))
    = redirected_attempt (CartDrawer.request sample_cart) [CloseDrawer]
        "https://spenspay.spensit.com/tempcheckout/xyz/abc".
Proof. repeat split; reflexivity. Qed.

(** C4, amended. A member counts as present when it is defined and not the
    empty string. At the checkout button, a present [checkout_url] is used
    as it is; otherwise present [link_id] and [brand_id] give
    [https://spenspay.spensit.com/tempcheckout/{brand_id}/{link_id}];
    otherwise the attempt fails. At the cart drawer [checkout_url] is not
    consulted: present [link_id] and [brand_id] give the same constructed
    URL, and the attempt fails when either is missing. At both call sites
    the handler navigates to the resolved URL, and ends in the Failed
    state, without navigating, when none is resolved. *)
Theorem redirect_url_resolution (d : CheckoutData) :
  (∀ url, present (checkout_url d) = Some url →
     CheckoutButton.redirectUrl d = mret url)
  ∧ (∀ linkId brandId,
       present (checkout_url d) = None →
       present (link_id d) = Some linkId → present (brand_id d) = Some brandId →
       CheckoutButton.redirectUrl d
       = mret ("https://spenspay.spensit.com/tempcheckout/" +:+ brandId +:+ "/" +:+ linkId))
  ∧ (present (checkout_url d) = None →
     present (link_id d) = None ∨ present (brand_id d) = None →
     ∃ err, CheckoutButton.redirectUrl d = throw err)
  ∧ (∀ linkId brandId,
       present (link_id d) = Some linkId → present (brand_id d) = Some brandId →
       CartDrawer.redirectUrl d
       = mret ("https://spenspay.spensit.com/tempcheckout/" +:+ brandId +:+ "/" +:+ linkId))
  ∧ (present (link_id d) = None ∨ present (brand_id d) = None →
     ∃ err, CartDrawer.redirectUrl d = throw err)
  ∧ (∀ l r b, ok r = true → body r = inr b → data b = d →
       (∀ url, CheckoutButton.redirectUrl d = mret url →
          fst (CheckoutButton.handleCheckout l (Responded r))
          = redirected_attempt (CheckoutButton.request l) [] url)
       ∧ (∀ err, CheckoutButton.redirectUrl d = throw err →
            fst (CheckoutButton.handleCheckout l (Responded r))
            = failed_attempt (CheckoutButton.request l) (message_of err))
       ∧ (∀ url, CartDrawer.redirectUrl d = mret url →
            fst (CartDrawer.handleCheckout l (Responded r))
            = redirected_attempt (CartDrawer.request l) [CloseDrawer] url)
       ∧ (∀ err, CartDrawer.redirectUrl d = throw err →
            fst (CartDrawer.handleCheckout l (Responded r))
            = failed_attempt (CartDrawer.request l) (message_of err))).
Proof.
  split; [|split; [|split; [|split; [|split]]]].
  - intros url Hurl. unfold CheckoutButton.redirectUrl. rewrite Hurl. reflexivity.
  - intros linkId brandId Hurl Hlink Hbrand.
    unfold CheckoutButton.redirectUrl. rewrite Hurl, Hlink, Hbrand. reflexivity.
  - intros Hurl Hmiss. unfold CheckoutButton.redirectUrl. rewrite Hurl.
    destruct Hmiss as [Hmiss|Hmiss]; rewrite Hmiss.
    + eexists. reflexivity.
    + destruct (present (link_id d)); eexists; reflexivity.
  - intros linkId brandId Hlink Hbrand.
    unfold CartDrawer.redirectUrl. rewrite Hlink, Hbrand. reflexivity.
  - intros Hmiss. unfold CartDrawer.redirectUrl.
    destruct Hmiss as [Hmiss|Hmiss]; rewrite Hmiss.
    + eexists. reflexivity.
    + destruct (present (link_id d)); eexists; reflexivity.
  - intros l r b Hok Hbody <-. repeat split.
    + intros url. apply CheckoutButton_resolved; assumption.
    + intros err. apply CheckoutButton_unresolved; assumption.
    + intros url. apply CartDrawer_resolved; assumption.
    + intros err. apply CartDrawer_unresolved; assumption.
Qed.

Lemma redirect_url_resolution_witness :
  CheckoutButton.redirectUrl (mkData (Some "https://pay.example/s/1") (Some "abc") (Some "xyz"))
  = mret "https://pay.example/s/1"
  ∧ CheckoutButton.redirectUrl (mkData None (Some "abc") (Some "xyz"))
    = mret "https://spenspay.spensit.com/tempcheckout/xyz/abc"
  ∧ (∃ err, CheckoutButton.redirectUrl (mkData None (Some "abc") None) = throw err)
  ∧ CartDrawer.redirectUrl (mkData (Some "https://pay.example/s/1") (Some "abc") (Some "xyz"))
    = mret "https://spenspay.spensit.com/tempcheckout/xyz/abc"
  ∧ (∃ err, CartDrawer.redirectUrl (mkData (Some "https://pay.example/s/1") None None)
            = throw err).
Proof.
  split; [|split; [|split; [|split]]].
  - destruct (redirect_url_resolution
                (mkData (Some "https://pay.example/s/1") (Some "abc") (Some "xyz")))
      as (Hverbatim & _).
    apply Hverbatim. reflexivity.
  - destruct (redirect_url_resolution (mkData None (Some "abc") (Some "xyz")))
      as (_ & Hbuilt & _).
    apply (Hbuilt "abc" "xyz"); reflexivity.
  - destruct (redirect_url_resolution (mkData None (Some "abc") None))
      as (_ & _ & Hfails & _).
    apply Hfails; [reflexivity | right; reflexivity].
  - destruct (redirect_url_resolution
                (mkData (Some "https://pay.example/s/1") (Some "abc") (Some "xyz")))
      as (_ & _ & _ & Hdrawer & _).
    apply (Hdrawer "abc" "xyz"); reflexivity.
  - destruct (redirect_url_resolution
                (mkData (Some "https://pay.example/s/1") None None))
      as (_ & _ & _ & _ & Hfails & _).
    apply Hfails. left. reflexivity.
Defined.

(** ** Failed attempts *)

Lemma resolve_of_cases (site : CallSite) (d : CheckoutData) :
  (∃ url, resolve_of site d = mret url)
  ∨ resolve_of site d = throw (ErrorObject (unresolved_message site d)).
Proof.
  destruct site; simpl;
    unfold CheckoutButton.redirectUrl, CartDrawer.redirectUrl.
  - destruct (present (checkout_url d)) as [url|]; [left; eauto|].
    destruct (present (link_id d)), (present (brand_id d)); eauto.
  - destruct (present (link_id d)), (present (brand_id d)); eauto.
Qed.

Lemma handler_resolved (site : CallSite) l r b url :
  ok r = true → body r = inr b → resolve_of site (data b) = mret url →
  fst (handler_of site l (Responded r))
  = redirected_attempt (request_of site l) (closing site) url.
Proof.
  destruct site; simpl; intros Hok Hbody Hurl.
  - apply CheckoutButton_resolved with (b := b); assumption.
  - apply CartDrawer_resolved with (b := b); assumption.
Qed.

Lemma handler_unresolved (site : CallSite) l r b err :
  ok r = true → body r = inr b → resolve_of site (data b) = throw err →
  fst (handler_of site l (Responded r))
  = failed_attempt (request_of site l) (message_of err).
Proof.
  destruct site; simpl; intros Hok Hbody Hurl.
  - apply CheckoutButton_unresolved with (b := b); assumption.
  - apply CartDrawer_unresolved with (b := b); assumption.
Qed.

Lemma click_failed handler (s : Session) net request message :
  fst (handler (items s) net) = failed_attempt request message →
  click handler s net
  = mkSession (items s) (isDrawerOpen s) false (Some message)
              (sent s ++ [request]) (location s).
Proof. intros Htrace. unfold click. rewrite Htrace. reflexivity. Qed.

Lemma navigate_in_redirected request between url :
  Navigate url ∈ redirected_attempt request between url.
Proof.
  unfold redirected_attempt. rewrite !elem_of_app. right. right. constructor.
Qed.

(** Every attempt ends in one of the two ways. *)
Lemma handler_cases (site : CallSite) (l : list CartItem) (net : FetchOutcome) :
  (∃ message,
     fst (handler_of site l net) = failed_attempt (request_of site l) message)
  ∨ (∃ url,
       fst (handler_of site l net)
       = redirected_attempt (request_of site l) (closing site) url).
Proof.
  destruct net as [err|r].
  - left. exists (message_of err). destruct site; reflexivity.
  - destruct (ok r) eqn:Hok.
    + destruct (body r) as [err|b] eqn:Hbody.
      * left. exists (message_of err).
        destruct site; simpl;
          [apply CheckoutButton_unreadable | apply CartDrawer_unreadable];
          assumption.
      * destruct (resolve_of_cases site (data b)) as [[url Hurl]|Hthrow].
        -- right. exists url. apply (handler_resolved site l r b url); assumption.
        -- left. eexists. apply (handler_unresolved site l r b _ Hok Hbody Hthrow).
    + left. exists (failure_message r).
      destruct site; simpl;
        [apply CheckoutButton_not_ok | apply CartDrawer_not_ok]; assumption.
Qed.

(** Every click sends one request, computed from the cart at that click. *)
Lemma click_sends (site : CallSite) (s : Session) (net : FetchOutcome) :
  sent (click (handler_of site) s net) = sent s ++ [request_of site (items s)].
Proof.
  unfold click.
  destruct (handler_cases site (items s) net) as [[message ->]|[url ->]].
  - reflexivity.
  - destruct site; reflexivity.
Qed.

Lemma unresolved_throws (site : CallSite) (d : CheckoutData) :
  unresolved site d →
  resolve_of site d = throw (ErrorObject (unresolved_message site d)).
Proof.
  destruct site; simpl;
    unfold CheckoutButton.redirectUrl, CartDrawer.redirectUrl.
  - intros [Hurl Hmiss]. rewrite Hurl. destruct Hmiss as [Hmiss|Hmiss].
    + rewrite Hmiss. reflexivity.
    + rewrite Hmiss. destruct (present (link_id d)); reflexivity.
  - intros [Hmiss|Hmiss].
    + rewrite Hmiss. reflexivity.
    + rewrite Hmiss. destruct (present (link_id d)); reflexivity.
Qed.

Lemma no_navigate_in_failed request message url :
  Navigate url ∉ failed_attempt request message.
Proof.
  intros Hin. unfold failed_attempt in Hin.
  repeat (apply elem_of_cons in Hin as [Hin|Hin]; [discriminate Hin|]).
  inversion Hin.
Qed.

(** What a failed attempt does and shows, by kind of failure. *)
Lemma failure_trace (site : CallSite) (l : list CartItem) (net : FetchOutcome) :
  failure site net →
  ∃ message,
    fst (handler_of site l net) = failed_attempt (request_of site l) message
    ∧ match net with
      | Rejected err => message = message_of err
      | Responded r =>
          if ok r then
            match body r with
            | inl err => message = message_of err
            | inr b => message = unresolved_message site (data b)
            end
          else
            message = or_else (match body r with inr b => error b | inl _ => None end)
                              (checkout_failed (status r))
      end.
Proof.
  intros [err | r Hok | r err Hok Hbody | r b Hok Hbody Hmiss].
  - exists (message_of err). split; [|reflexivity]. destruct site; reflexivity.
  - exists (failure_message r). rewrite Hok. split.
    + destruct site; simpl;
        [apply CheckoutButton_not_ok | apply CartDrawer_not_ok]; assumption.
    + unfold failure_message. destruct (body r); reflexivity.
  - exists (message_of err). rewrite Hok, Hbody. split; [|reflexivity].
    destruct site; simpl;
      [apply CheckoutButton_unreadable | apply CartDrawer_unreadable];
      assumption.
  - exists (unresolved_message site (data b)). rewrite Hok, Hbody.
    split; [|reflexivity].
    apply (handler_unresolved site l r b _ Hok Hbody (unresolved_throws _ _ Hmiss)).
Qed.

(** The kinds of failure are all the outcomes that end without a
    redirect. *)
Lemma failure_or_redirect (site : CallSite) (net : FetchOutcome) :
  failure site net
  ∨ ∃ r b url, net = Responded r ∧ ok r = true ∧ body r = inr b
               ∧ resolve_of site (data b) = mret url.
Proof.
  destruct net as [err|r]; [left; constructor|].
  destruct (ok r) eqn:Hok; [|left; apply response_not_ok; exact Hok].
  destruct (body r) as [err|b] eqn:Hbody;
    [left; apply (body_unreadable site r err Hok Hbody)|].
  destruct (resolve_of site (data b)) as [trace [err|url]] eqn:Hurl.
  - left. apply (url_missing site r b Hok Hbody).
    destruct site; simpl in Hurl |- *;
      unfold CheckoutButton.redirectUrl, CartDrawer.redirectUrl in Hurl.
    + destruct (present (checkout_url (data b))); [discriminate Hurl|].
      split; [reflexivity|].
      destruct (present (link_id (data b))); [|left; reflexivity].
      destruct (present (brand_id (data b))); [discriminate Hurl | right; reflexivity].
    + destruct (present (link_id (data b))); [|left; reflexivity].
      destruct (present (brand_id (data b))); [discriminate Hurl | right; reflexivity].
  - right. exists r, b, url.
    split; [reflexivity|]. split; [exact Hok|]. split; [exact Hbody|].
    destruct (resolve_of_cases site (data b)) as [[url' Hurl']|Hthrow].
    + rewrite Hurl' in Hurl. injection Hurl as _ ->. exact Hurl'.
    + rewrite Hthrow in Hurl. discriminate Hurl.
Qed.

(** C6 as stated fails for two of the three kinds of failure: for a
    success response that lacks the redirect members the message shown is
    a fixed text, even when the body has an [error] member, and for a
    network exception it is the exception's message; neither embeds the
    status code. *)
Lemma unresolved_message_counterexample :
  let lacking := mkResponse true 200
                   (inr (mkBody (Some "Out of stock") (mkData None None None))) in
  let s := initial_session sample_cart in
  (∀ url, Navigate url ∉ fst (CheckoutButton.handleCheckout (items s) (Responded lacking)))
  ∧ errorShown (click CheckoutButton.handleCheckout s (Responded lacking))
    = Some "No checkout URL or link_id/brand_id returned from the checkout API."
  ∧ errorShown (click CheckoutButton.handleCheckout s (Responded lacking))
    ≠ Some (or_else (Some "Out of stock") (checkout_failed 200))
  ∧ errorShown (click CartDrawer.handleCheckout s (Responded lacking))
    = Some "No link_id returned from the checkout API."
  ∧ errorShown (click CheckoutButton.handleCheckout s
                  (Rejected (ErrorObject "Failed to fetch")))
    = Some "Failed to fetch".
Proof.
  cbv zeta. split; [|split; [|split; [|split]]]; try reflexivity.
  - intros url Hin. vm_compute in Hin.
    repeat (apply elem_of_cons in Hin as [Hin|Hin]; [discriminate Hin|]).
    inversion Hin.
  - vm_compute. discriminate.
Qed.

(** C6, amended. A checkout attempt fails when [fetch] throws, when the
    response is not ok, when the body of an ok response cannot be read, and
    when an ok response holds no redirect URL for the call site. Every such
    attempt dispatches nothing and does not navigate: it leaves the cart
    and the location as they were, ends with [loading] off, and shows: for
    a response that is not ok, the [error] member of its body when that is
    present and not empty, otherwise "Checkout failed (status)"; for an ok
    response whose body cannot be read, or a [fetch] that throws, the
    message of the exception; for an ok response that holds no redirect
    URL, the fixed message of the call site. Every click, the one on "Try
    again" included, sends the request computed from the cart as it is at
    that click. *)
Theorem failed_checkout_keeps_cart
    (site : CallSite) (s : Session) (net : FetchOutcome) :
  failure site net →
  let s' := click (handler_of site) s net in
  (∀ e, e ∈ fst (handler_of site (items s) net) →
        (∀ action, e ≠ Dispatch action) ∧ (∀ url, e ≠ Navigate url))
  ∧ items s' = items s
  ∧ location s' = location s
  ∧ loading s' = false
  ∧ sent s' = sent s ++ [request_of site (items s)]
  ∧ (∃ message, errorShown s' = Some message
       ∧ match net with
         | Rejected err => message = message_of err
         | Responded r =>
             if ok r then
               match body r with
               | inl err => message = message_of err
               | inr b => message = unresolved_message site (data b)
               end
             else
               message
               = or_else (match body r with inr b => error b | inl _ => None end)
                         (checkout_failed (status r))
         end)
  ∧ (∀ actions net',
       let retried := foldl perform s' (Dispatch <$> actions) in
       items retried = dispatch_all (items s) actions
       ∧ last (sent (click (handler_of site) retried net'))
         = Some (request_of site (dispatch_all (items s) actions))).
Proof.
  intros Hfailed s'.
  destruct (failure_trace site (items s) net Hfailed) as (message & Htrace & Hmessage).
  assert (Hs' : s' = mkSession (items s) (isDrawerOpen s) false (Some message)
                       (sent s ++ [request_of site (items s)]) (location s))
    by (apply click_failed; exact Htrace).
  clearbody s'. subst s'. cbn [items location loading sent errorShown].
  split.
  { rewrite Htrace. unfold failed_attempt. intros e He.
    repeat (apply elem_of_cons in He as [->|He]; [split; discriminate|]).
    inversion He. }
  repeat (split; [reflexivity|]). split; [exists message; auto|].
  intros actions net'. cbv zeta.
  assert (Hitems : ∀ s0, items (foldl perform s0 (Dispatch <$> actions))
                         = dispatch_all (items s0) actions).
  { induction actions as [|a actions IH]; intros s0; [reflexivity|].
    cbn [fmap list_fmap foldl]. rewrite IH. reflexivity. }
  split; [rewrite Hitems; reflexivity|].
  rewrite click_sends, Hitems, last_snoc. reflexivity.
Qed.

Lemma failed_checkout_keeps_cart_witness :
  items (click (handler_of Button) (initial_session sample_cart)
           (Responded (mkResponse false 409
                         (inr (mkBody (Some "Out of stock") (mkData None None None))))))
  = sample_cart
  ∧ errorShown
      (click (handler_of Drawer) (initial_session sample_cart)
         (Responded (mkResponse true 200
                       (inr (mkBody None (mkData (Some "https://pay.example/s/1")
                                            None (Some "xyz")))))))
    = Some "No link_id returned from the checkout API.".
Proof.
  split.
  - destruct (failed_checkout_keeps_cart Button (initial_session sample_cart)
                (Responded (mkResponse false 409
                              (inr (mkBody (Some "Out of stock") (mkData None None None))))))
      as (_ & Hitems & _).
    + apply response_not_ok. reflexivity.
    + exact Hitems.
  - destruct (failed_checkout_keeps_cart Drawer (initial_session sample_cart)
                (Responded (mkResponse true 200
                              (inr (mkBody None (mkData (Some "https://pay.example/s/1")
                                                   None (Some "xyz")))))))
      as (_ & _ & _ & _ & _ & (message & Hshown & Hmessage) & _).
    + eapply url_missing; [reflexivity | reflexivity | left; reflexivity].
    + rewrite Hshown. f_equal. exact Hmessage.
Defined.

(** ** Program order of a successful handoff *)

(** In the handler, the dispatch of [CLEAR_CART] comes before the
    assignment of the location, which is its last step. *)
Lemma clear_dispatched_before_navigate
    (site : CallSite) (l : list CartItem) (net : FetchOutcome) (url : string) :
  Navigate url ∈ fst (handler_of site l net) →
  ∃ before,
    fst (handler_of site l net) = before ++ [Navigate url]
    ∧ Dispatch CLEAR_CART ∈ before
    ∧ ∀ u, Navigate u ∉ before.
Proof.
  intros Hin.
  destruct (handler_cases site l net) as [[message Htrace]|[url' Htrace]];
    rewrite Htrace in Hin |- *.
  - exfalso. unfold failed_attempt in Hin.
    repeat (apply elem_of_cons in Hin as [Hin|Hin]; [discriminate Hin|]).
    inversion Hin.
  - assert (url' = url) as ->.
    { unfold redirected_attempt in Hin. destruct site; simpl in Hin;
        repeat (apply elem_of_cons in Hin as [Hin|Hin];
                [first [discriminate Hin | injection Hin as ->; reflexivity]|]);
        inversion Hin. }
    exists ([SetLoading true; SetError None;
             Fetch "/api/checkout" (request_of site l); Dispatch CLEAR_CART]
            ++ closing site).
    split; [unfold redirected_attempt; rewrite <- app_assoc; reflexivity|].
    split; [apply elem_of_app; left; repeat constructor|].
    intros u Hu. destruct site; simpl in Hu;
      repeat (apply elem_of_cons in Hu as [Hu|Hu]; [discriminate Hu|]);
      inversion Hu.
Qed.

(** ** Persistence *)

Lemma as_CartItem_item_value (item : CartItem) :
  as_CartItem (item_value item) = Some item.
Proof. destruct item as [p n pr c i [col|] [sz|] q]; reflexivity. Qed.

Lemma as_CartItems_cart_value (l : list CartItem) :
  as_CartItems (cart_value l) = Some l.
Proof.
  unfold as_CartItems, cart_value. induction l as [|item l IH]; [reflexivity|].
  cbn [fmap list_fmap mapM]. rewrite as_CartItem_item_value. simpl.
  rewrite IH. reflexivity.
Qed.

(** C7. For a serializable list and a store that accepts the write, what
    [loadCart] returns after [persistCart] is the value of the list, equal
    to it field for field. [loadCart] returns the empty array when the
    store cannot be read, when the key is absent, when the stored text is
    empty and when it does not parse; a write that fails changes nothing. *)
Theorem persistence_round_trip
    (JSON_stringify : json → string) (JSON_parse : string → option json)
    (l : list CartItem) (quota : nat) (slots : gmap string string) :
  serializable JSON_stringify JSON_parse l →
  (String.length (JSON_stringify (cart_value l)) ≤ quota)%nat →
  loadCart JSON_parse (persistCart JSON_stringify l (Available quota slots))
  = cart_value l
  ∧ as_CartItems
      (loadCart JSON_parse (persistCart JSON_stringify l (Available quota slots)))
    = Some l
  ∧ loadCart JSON_parse Unavailable = JArr []
  ∧ (∀ q m, m !! STORAGE_KEY = None → loadCart JSON_parse (Available q m) = JArr [])
  ∧ (∀ q m text, m !! STORAGE_KEY = Some text →
       JSON_parse text = None ∨ text = EmptyString →
       loadCart JSON_parse (Available q m) = JArr [])
  ∧ persistCart JSON_stringify l Unavailable = Unavailable.
Proof.
  intros [Hparse Hnonempty] Hquota.
  assert (Hload : loadCart JSON_parse
                    (persistCart JSON_stringify l (Available quota slots))
                  = cart_value l).
  { unfold persistCart, setItem. apply Nat.leb_le in Hquota. rewrite Hquota.
    unfold loadCart, getItem. rewrite lookup_insert_eq.
    unfold truthy. rewrite bool_decide_eq_false_2 by exact Hnonempty.
    simpl. rewrite Hparse. reflexivity. }
  split; [exact Hload|]. split; [rewrite Hload; apply as_CartItems_cart_value|].
  split; [reflexivity|]. split; [|split; [|reflexivity]].
  - intros q m Hm. unfold loadCart, getItem. rewrite Hm. reflexivity.
  - intros q m text Hm Hbad. unfold loadCart, getItem. rewrite Hm.
    destruct (truthy text) eqn:Htruthy; [|reflexivity].
    destruct Hbad as [Hbad| ->]; [rewrite Hbad; reflexivity | discriminate Htruthy].
Qed.

Lemma persistence_round_trip_witness :
  loadCart parse_json (persistCart write_json sample_cart (Available 4096 ∅))
  = cart_value sample_cart.
Proof.
  apply (persistence_round_trip write_json parse_json sample_cart 4096 ∅).
  - split; [vm_compute; reflexivity | vm_compute; discriminate].
  - apply Nat.leb_le. vm_compute. reflexivity.
Defined.

(** ** The [counts] object *)





Lemma counts_set_present (c : string) (n : CountValue) (counts : Counts) :
  c ∈ fst <$> counts → fst <$> counts_set c n counts = fst <$> counts.
Proof.
  induction counts as [|[k' v] counts IH]; simpl; intros Hin.
  - inversion Hin.
  - destruct (bool_decide_reflect (k' = c)) as [->|Hne]; [reflexivity|].
    cbn [fmap list_fmap fst]. f_equal. apply IH.
    apply elem_of_cons in Hin as [Heq|Hin]; [simpl in Heq; congruence | exact Hin].
Qed.

Lemma counts_set_absent (c : string) (n : CountValue) (counts : Counts) :
  c ∉ fst <$> counts → counts_set c n counts = counts ++ [(c, n)].
Proof.
  induction counts as [|[k' v] counts IH]; simpl; intros Hnotin; [reflexivity|].
  apply not_elem_of_cons in Hnotin as [Hne Hnotin]. simpl in Hne.
  rewrite bool_decide_eq_false_2 by congruence. f_equal. apply IH, Hnotin.
Qed.

(** Assigning to [counts] defines at most the assigned key. *)
Lemma counts_assign_keys (k c : string) (v : CountValue) (counts : Counts) :
  k ∈ fst <$> counts_assign c v counts → k = c ∨ (k ∈ fst <$> counts).
Proof.
  unfold counts_assign. destruct (bool_decide (c = "__proto__")); [auto|].
  destruct (decide (c ∈ fst <$> counts)) as [Hin|Hnotin].
  - rewrite counts_set_present by exact Hin. auto.
  - rewrite counts_set_absent by exact Hnotin. rewrite fmap_app.
    intros Hk. apply elem_of_app in Hk as [Hk|Hk]; [auto|].
    apply list_elem_of_singleton in Hk. auto.
Qed.

(** ** Keys of [counts] *)


Lemma capital_not_digit (a : ascii) : is_capital a = true → digit_value a = None.
Proof.
  destruct a as [[] [] [] [] [] [] [] []]; vm_compute; intros Hcap;
    first [reflexivity | discriminate Hcap].
Qed.

(** An alphabetic code is an ordinary key. *)
Lemma alpha_code_ordinary (c : string) :
  is_alpha_code c = true → ordinary_key c = true.
Proof.
  intros Halpha. unfold ordinary_key. apply andb_true_intro. split.
  - apply bool_decide_eq_true_2. destruct c as [|a rest]; [reflexivity|].
    unfold is_alpha_code in Halpha. simpl in Halpha.
    apply andb_prop in Halpha as [Hcap _].
    unfold array_index. cbn [digits_value]. rewrite (capital_not_digit a Hcap).
    reflexivity.
  - apply negb_true_iff, bool_decide_eq_false_2. intros Hmember.
    unfold inherited_members in Hmember.
    repeat (apply elem_of_cons in Hmember as [->|Hmember]; [discriminate Halpha|]).
    inversion Hmember.
Qed.

(** ** First occurrences and counts of a currency *)

Section Currency.

Context `{HasCurrency A}.

Lemma currency_count_snoc (k : string) (l : list A) (x : A) :
  currency_count k (l ++ [x])
  = (currency_count k l + if bool_decide (currency x = k) then 1 else 0)%nat.
Proof.
  unfold currency_count. rewrite filter_app, length_app. f_equal.
  rewrite filter_cons, filter_nil.
  destruct (decide (currency x = k)) as [Hx|Hx].
  - rewrite bool_decide_eq_true_2 by exact Hx. reflexivity.
  - rewrite bool_decide_eq_false_2 by exact Hx. reflexivity.
Qed.

Lemma currency_count_pos (k : string) (l : list A) :
  (0 < currency_count k l)%nat ↔ ∃ x, x ∈ l ∧ currency x = k.
Proof.
  unfold currency_count. split.
  - intros Hpos. destruct (filter (λ item, currency item = k) l) as [|x rest] eqn:Hf;
      [simpl in Hpos; lia|].
    exists x. assert (Hx : x ∈ filter (λ item, currency item = k) l)
      by (rewrite Hf; constructor).
    apply list_elem_of_filter in Hx as [Hx Hin]. auto.
  - intros (x & Hin & Hx).
    assert (Hx' : x ∈ filter (λ item, currency item = k) l)
      by (apply list_elem_of_filter; auto).
    destruct (filter (λ item, currency item = k) l); [inversion Hx' | simpl; lia].
Qed.




End Currency.

(** ** The two loops of [getMajorityCurrency] *)

Section Majority.

Context `{HasCurrency A}.

Lemma count_currencies_snoc (l : list A) (x : A) :
  count_currencies (l ++ [x])
  = counts_assign (currency x)
      (incremented (counts_read (currency x) (count_currencies l)))
      (count_currencies l).
Proof. unfold count_currencies. rewrite foldl_snoc. reflexivity. Qed.

(** Every key of [counts] is the currency of a line item. *)
Lemma count_currencies_keys (l : list A) (k : string) :
  k ∈ fst <$> count_currencies l → (0 < currency_count k l)%nat.
Proof.
  induction l as [|x l IH] using rev_ind; [intros Hk; inversion Hk|].
  rewrite count_currencies_snoc, currency_count_snoc. intros Hk.
  apply counts_assign_keys in Hk as [->|Hk].
  - rewrite bool_decide_eq_true_2 by reflexivity. lia.
  - specialize (IH Hk). lia.
Qed.


End Majority.

(** [Object.entries] enumerates own properties, and nothing else. *)
Lemma Object_entries_subset (counts : Counts) (entry : string * CountValue) :
  entry ∈ Object_entries counts → entry ∈ counts.
Proof.
  unfold Object_entries. intros Hentry.
  apply elem_of_app in Hentry as [Hentry|Hentry].
  - apply list_elem_of_fmap in Hentry as ([n e] & -> & Hsorted).
    rewrite merge_sort_Permutation in Hsorted.
    apply list_elem_of_omap in Hsorted as (e' & Hin & Hindex).
    destruct (array_index (fst e')); [|discriminate].
    injection Hindex as _ ->. exact Hin.
  - apply list_elem_of_filter in Hentry as [_ Hin]. exact Hin.
Qed.


(** The second loop keeps the first entry whose count is the greatest,
    when some count exceeds the initial [max]. *)
Lemma pick_majority_spec (m0 : string) (x0 : Z) (entries : Counts) :
  let '(m, x) := pick_majority (m0, x0) entries in
  x0 ≤ x
  ∧ (∀ i k n, entries !! i = Some (k, Count n) → n ≤ x)
  ∧ ((m = m0 ∧ x = x0)
     ∨ ∃ i, entries !! i = Some (m, Count x)
            ∧ ∀ j k n, entries !! j = Some (k, Count n) → (j < i)%nat → n < x).
Proof.
  induction entries as [|[k v] entries IH] using rev_ind.
  - simpl. split; [lia|]. split; [intros i k n Hi; discriminate Hi | left; auto].
  - unfold pick_majority in *. rewrite foldl_snoc.
    destruct (foldl _ (m0, x0) entries) as [m x]. destruct IH as (Hle & Hmax & Hwhich).
    assert (Hkeep :
      (∀ i k' n, (entries ++ [(k, v)]) !! i = Some (k', Count n) → n ≤ x) →
      x0 ≤ x
      ∧ (∀ i k' n, (entries ++ [(k, v)]) !! i = Some (k', Count n) → n ≤ x)
      ∧ ((m = m0 ∧ x = x0)
         ∨ ∃ i, (entries ++ [(k, v)]) !! i = Some (m, Count x)
                ∧ ∀ j k' n, (entries ++ [(k, v)]) !! j = Some (k', Count n) →
                            (j < i)%nat → n < x)).
    { intros Hall. split; [exact Hle|]. split; [exact Hall|].
      destruct Hwhich as [Hinit|(i & Hi & Hbefore)]; [left; exact Hinit|].
      right. exists i.
      assert (Hilt : (i < length entries)%nat) by (eapply lookup_lt_Some; exact Hi).
      split; [rewrite lookup_app_l by exact Hilt; exact Hi|].
      intros j k' n Hj Hlt. rewrite lookup_app_l in Hj by lia.
      exact (Hbefore j k' n Hj Hlt). }
    destruct v as [n|].
    + destruct (bool_decide_reflect (n > x)) as [Hgt|Hngt].
      * split; [lia|]. split.
        -- intros i k' n' Hi. apply lookup_snoc_Some in Hi as [[_ Hi]|[_ Heq]].
           ++ specialize (Hmax i k' n' Hi). lia.
           ++ injection Heq as _ <-. lia.
        -- right. exists (length entries). split.
           ++ apply list_lookup_middle. reflexivity.
           ++ intros j k' n' Hj Hlt. rewrite lookup_app_l in Hj by exact Hlt.
              specialize (Hmax j k' n' Hj). lia.
      * apply Hkeep. intros i k' n' Hi.
        apply lookup_snoc_Some in Hi as [[_ Hi]|[_ Heq]].
        -- exact (Hmax i k' n' Hi).
        -- injection Heq as _ <-. lia.
    + apply Hkeep. intros i k' n' Hi.
      apply lookup_snoc_Some in Hi as [[_ Hi]|[_ Heq]].
      * exact (Hmax i k' n' Hi).
      * discriminate Heq.
Qed.

(** The second loop answers the initial currency or the key of an entry. *)
Lemma pick_majority_listed (m0 : string) (x0 : Z) (entries : Counts) :
  fst (pick_majority (m0, x0) entries) = m0
  ∨ fst (pick_majority (m0, x0) entries) ∈ fst <$> entries.
Proof.
  pose proof (pick_majority_spec m0 x0 entries) as Hpick.
  destruct (pick_majority (m0, x0) entries) as [m x].
  destruct Hpick as (_ & _ & [[-> _]|(i & Hi & _)]); cbn [fst]; [left; reflexivity|].
  right. apply list_elem_of_fmap. exists (m, Count x). split; [reflexivity|].
  eapply list_elem_of_lookup_2. exact Hi.
Qed.

(** ** Majority currency *)

Example majority_counts_line_items :
  getMajorityCurrency
    [mkCartItem "a" "A" 5 "USD" "/img/a.png" None None 100; mug;
     mkCartItem "c" "C" 5 "EUR" "/img/c.png" None None 1]
  = "EUR".
Proof. reflexivity. Qed.




(** * Further properties of the cart session *)

(** ** The unit count *)

Lemma itemCount_from (a : Z) (l : list CartItem) :
  foldl (λ sum item, sum + quantity item) a l = a + itemCount l.
Proof.
  unfold itemCount. revert a. induction l as [|x l IH]; intros a; simpl.
  - lia.
  - rewrite (IH (a + quantity x)), (IH (0 + quantity x)). lia.
Qed.

Lemma itemCount_cons (x : CartItem) (l : list CartItem) :
  itemCount (x :: l) = quantity x + itemCount l.
Proof. unfold itemCount at 1. simpl. rewrite itemCount_from. lia. Qed.

Lemma itemCount_app (l1 l2 : list CartItem) :
  itemCount (l1 ++ l2) = itemCount l1 + itemCount l2.
Proof.
  induction l1 as [|x l1 IH]; [reflexivity|].
  rewrite <- app_comm_cons, !itemCount_cons, IH. lia.
Qed.

Lemma Forall_kept_by_filter (P Q : CartItem → Prop) `{∀ x, Decision (P x)}
    (l : list CartItem) :
  Forall Q l → Forall Q (filter P l).
Proof.
  rewrite !Forall_forall. intros Hl x Hx.
  apply list_elem_of_filter in Hx as [_ Hx]. auto.
Qed.

Lemma itemCount_nonneg (l : list CartItem) :
  Forall (λ item, 0 ≤ quantity item) l → 0 ≤ itemCount l.
Proof.
  intros Hl. induction Hl as [|x l Hx _ IH]; [reflexivity|].
  rewrite itemCount_cons. lia.
Qed.

(** X1. An Add raises the unit count by the quantity of its payload,
    whether it starts a line or joins one, as long as the count is exact:
    no quantity is negative and the raised count is a safe integer. *)
Theorem itemCount_after_add (state : list CartItem) (item : CartItem) :
  Forall (λ line, 0 ≤ quantity line) state → 0 ≤ quantity item →
  itemCount state + quantity item ≤ 2 ^ 53 →
  itemCount (cartReducer state (addItem item)) = itemCount state + quantity item
  ∧ exact_count (cartReducer state (addItem item)).
Proof.
  intros Hstate Hitem Hbound.
  assert (Hcount : itemCount (cartReducer state (addItem item))
                   = itemCount state + quantity item).
  { unfold addItem.
    destruct (split_at_variant state item)
      as [Hnone | (pre & cur & post & -> & Hpre & Hcur)].
    - rewrite add_absent by assumption. rewrite itemCount_app, itemCount_cons.
      change (itemCount []) with 0. lia.
    - rewrite add_present by assumption.
      rewrite !itemCount_app, !itemCount_cons. cbn [quantity with_quantity]. lia. }
  split; [exact Hcount|]. split; [|rewrite Hcount; exact Hbound].
  unfold addItem.
  destruct (split_at_variant state item)
    as [Hnone | (pre & cur & post & -> & Hpre & Hcur)].
  - rewrite add_absent by assumption. apply Forall_app. split; [exact Hstate|].
    apply Forall_singleton. exact Hitem.
  - rewrite add_present by assumption.
    apply Forall_app in Hstate as [Hp Hrest]. apply Forall_cons in Hrest as [Hc Hq].
    apply Forall_app. split; [exact Hp|]. apply Forall_cons. split; [|exact Hq].
    cbn [quantity with_quantity]. cbv beta in Hc. lia.
Qed.

Lemma itemCount_after_add_witness :
  itemCount (cartReducer sample_cart (addItem (tee 2 "Tee" 10 "USD")))
  = itemCount sample_cart + 2.
Proof.
  apply (itemCount_after_add sample_cart (tee 2 "Tee" 10 "USD")).
  - repeat constructor; simpl; lia.
  - simpl. lia.
  - vm_compute. discriminate.
Defined.

(** X2. A Remove lowers the unit count by the quantities of the lines of
    the removed variant, and leaves it as it is when there is none, as
    long as the count is exact. *)
Theorem itemCount_after_remove
    (state : list CartItem) (productId : string) (color size : option string) :
  exact_count state →
  itemCount (cartReducer state (removeItem productId color size))
  = itemCount state
    - itemCount (filter (λ item, isSameVariant item (mkRemove productId color size) = true)
                        state)
  ∧ exact_count (cartReducer state (removeItem productId color size)).
Proof.
  intros [Hstate Hbound].
  assert (Hcount : itemCount (cartReducer state (removeItem productId color size))
                   = itemCount state
                     - itemCount (filter (λ item, isSameVariant item
                                            (mkRemove productId color size) = true)
                                         state)).
  { clear. unfold removeItem. cbn [cartReducer]. induction state as [|x l IH].
    - reflexivity.
    - destruct (isSameVariant x (mkRemove productId color size)) eqn:Hx.
      + rewrite filter_cons_False by (rewrite Hx; discriminate).
        rewrite (filter_cons_True (λ item, isSameVariant item _ = true)) by exact Hx.
        rewrite !itemCount_cons, IH. lia.
      + rewrite filter_cons_True by (rewrite Hx; reflexivity).
        rewrite (filter_cons_False (λ item, isSameVariant item _ = true))
          by (rewrite Hx; discriminate).
        rewrite !itemCount_cons, IH. lia. }
  split; [exact Hcount|]. split.
  - unfold removeItem. cbn [cartReducer]. apply Forall_kept_by_filter. exact Hstate.
  - rewrite Hcount.
    pose proof (itemCount_nonneg _
                  (Forall_kept_by_filter
                     (λ item, isSameVariant item (mkRemove productId color size) = true)
                     _ state Hstate)).
    lia.
Qed.

Lemma itemCount_after_remove_witness :
  itemCount (cartReducer sample_cart (removeItem "p2" None None))
  = itemCount sample_cart
    - itemCount (filter (λ item, isSameVariant item (mkRemove "p2" None None) = true)
                        sample_cart).
Proof.
  apply (itemCount_after_remove sample_cart "p2" None None).
  split; [repeat constructor; simpl; lia | vm_compute; discriminate].
Defined.

(** X3. In a cart whose quantities are all at least 1 the unit count is at
    least the number of lines, so the badge shows 0 only for the empty
    cart. *)
Theorem itemCount_counts_lines (state : list CartItem) :
  quantities_positive state →
  Z.of_nat (length state) ≤ itemCount state
  ∧ (itemCount state = 0 ↔ state = []).
Proof.
  intros Hpos.
  assert (Hlen : Z.of_nat (length state) ≤ itemCount state).
  { induction Hpos as [|x l Hx _ IH]; [reflexivity|].
    rewrite itemCount_cons. simpl length. lia. }
  split; [exact Hlen|]. split.
  - intros Hzero. destruct state as [|x l]; [reflexivity|].
    simpl length in Hlen. lia.
  - intros ->. reflexivity.
Qed.

Lemma itemCount_counts_lines_witness :
  Z.of_nat (length sample_cart) ≤ itemCount sample_cart.
Proof.
  apply (itemCount_counts_lines sample_cart).
  repeat constructor; simpl; lia.
Defined.

(** ** Rehydration on mount *)

Section Mount.

Variable JSON_stringify : json → string.
Variable JSON_parse : string → option json.
Variable js_positive : json → bool.

Lemma loadCart_after_persist (l : list CartItem) (quota : nat)
    (slots : gmap string string) :
  serializable JSON_stringify JSON_parse l →
  (String.length (JSON_stringify (cart_value l)) ≤ quota)%nat →
  loadCart JSON_parse (persistCart JSON_stringify l (Available quota slots))
  = cart_value l.
Proof.
  intros [Hparse Hnonempty] Hquota.
  unfold persistCart, setItem. apply Nat.leb_le in Hquota. rewrite Hquota.
  unfold loadCart, getItem. rewrite lookup_insert_eq.
  unfold truthy. rewrite bool_decide_eq_false_2 by exact Hnonempty.
  simpl. rewrite Hparse. reflexivity.
Qed.

(** X4. A cart that was persisted is the cart after the next mount: for a
    serializable list and a store that accepted the write, the mount effect
    dispatches nothing when the list is empty and otherwise a Hydrate
    whose payload is the value of that list, equal to it field for field,
    so that the reducer state is the list in both cases. *)
Theorem cart_survives_reload (l : list CartItem) (quota : nat)
    (slots : gmap string string) :
  serializable JSON_stringify JSON_parse l →
  (String.length (JSON_stringify (cart_value l)) ≤ quota)%nat →
  hydration_effect JSON_parse js_positive
    (persistCart JSON_stringify l (Available quota slots))
  = (if l is [] then MountIdle else MountHydrates (cart_value l))
  ∧ as_CartItems (cart_value l) = Some l
  ∧ (l ≠ [] → cartReducer [] (HYDRATE l) = l).
Proof.
  intros Hser Hquota. unfold hydration_effect.
  rewrite (loadCart_after_persist l quota slots Hser Hquota).
  split; [destruct l; reflexivity|].
  split; [apply as_CartItems_cart_value | reflexivity].
Qed.

(** X5. The mount effect dispatches nothing when the store cannot be read,
    holds nothing under the key, holds the empty text, a text that does not
    parse, or the text of an empty array, an empty string, a number or a
    boolean. It throws when the stored text parses to [null], and it
    dispatches a Hydrate with whatever non-empty array or string the text
    parses to, without checking that it is a list of cart items. *)
Theorem mount_effect_by_stored_text (st : LocalStorage) :
  ((st = Unavailable
    ∨ (∃ q m, st = Available q m ∧ m !! STORAGE_KEY = None)
    ∨ (∃ q m text, st = Available q m ∧ m !! STORAGE_KEY = Some text
         ∧ (text = EmptyString ∨ JSON_parse text = None
            ∨ JSON_parse text = Some (JArr [])
            ∨ JSON_parse text = Some (JStr EmptyString)
            ∨ (∃ n, JSON_parse text = Some (JNum n))
            ∨ (∃ b, JSON_parse text = Some (JBool b))))) →
   hydration_effect JSON_parse js_positive st = MountIdle)
  ∧ (∀ q m text, st = Available q m → m !! STORAGE_KEY = Some text →
       text ≠ EmptyString → JSON_parse text = Some JNull →
       hydration_effect JSON_parse js_positive st = MountThrows)
  ∧ (∀ q m text v, st = Available q m → m !! STORAGE_KEY = Some text →
       text ≠ EmptyString → JSON_parse text = Some v →
       (∃ e es, v = JArr (e :: es)) ∨ (∃ c cs, v = JStr (String c cs)) →
       hydration_effect JSON_parse js_positive st = MountHydrates v).
Proof.
  unfold hydration_effect, loadCart, getItem. split; [|split].
  - intros [->|[(q & m & -> & Hm)|(q & m & text & -> & Hm & Hbad)]].
    + reflexivity.
    + rewrite Hm. reflexivity.
    + rewrite Hm. destruct (truthy text) eqn:Htruthy; [|reflexivity].
      destruct Hbad as [->|[Hbad|[Hbad|[Hbad|[[n Hbad]|[b Hbad]]]]]];
        [discriminate Htruthy | rewrite Hbad; reflexivity ..].
  - intros q m text -> Hm Hne Hnull. rewrite Hm.
    assert (Htruthy : truthy text = true)
      by (unfold truthy; rewrite bool_decide_eq_false_2 by exact Hne; reflexivity).
    rewrite Htruthy, Hnull. reflexivity.
  - intros q m text v -> Hm Hne Hv Hshape. rewrite Hm.
    assert (Htruthy : truthy text = true)
      by (unfold truthy; rewrite bool_decide_eq_false_2 by exact Hne; reflexivity).
    rewrite Htruthy, Hv.
    destruct Hshape as [(e & es & ->)|(c & cs & ->)]; reflexivity.
Qed.

End Mount.

Lemma cart_survives_reload_witness :
  hydration_effect parse_json (λ _, false)
    (persistCart write_json sample_cart (Available 4096 ∅))
  = MountHydrates (cart_value sample_cart).
Proof.
  apply (cart_survives_reload write_json parse_json (λ _, false) sample_cart 4096 ∅).
  - split; [vm_compute; reflexivity | vm_compute; discriminate].
  - apply Nat.leb_le. vm_compute. reflexivity.
Defined.

Lemma mount_effect_by_stored_text_witness :
  hydration_effect parse_json (λ _, false)
    (Available 4096 {[ STORAGE_KEY := "{not json" ]})
  = MountIdle
  ∧ hydration_effect parse_json (λ _, false)
      (Available 4096 {[ STORAGE_KEY := "null" ]})
    = MountThrows.
Proof.
  split.
  - apply (mount_effect_by_stored_text parse_json (λ _, false)
             (Available 4096 {[ STORAGE_KEY := "{not json" ]})).
    right. right. exists 4096%nat, {[ STORAGE_KEY := "{not json" ]}, "{not json".
    split; [reflexivity|]. split; [apply lookup_singleton_eq|].
    right. left. vm_compute. reflexivity.
  - destruct (mount_effect_by_stored_text parse_json (λ _, false)
                (Available 4096 {[ STORAGE_KEY := "null" ]})) as (_ & Hthrows & _).
    apply (Hthrows 4096%nat {[ STORAGE_KEY := "null" ]} "null").
    + reflexivity.
    + apply lookup_singleton_eq.
    + discriminate.
    + vm_compute. reflexivity.
Defined.

(** ** Each action and the two invariants *)

Lemma add_keeps_positive (state : list CartItem) (payload : CartItem) :
  quantities_positive state → 1 ≤ quantity payload →
  quantities_positive (cartReducer state (ADD_ITEM payload)).
Proof.
  unfold quantities_positive. intros Hstate Hq.
  destruct (split_at_variant state payload)
    as [Hnone | (pre & cur & post & -> & Hpre & Hcur)].
  - rewrite add_absent by assumption. apply Forall_app. split; [assumption|].
    constructor; [exact Hq | constructor].
  - rewrite add_present by assumption.
    apply Forall_app in Hstate as [Hp Hrest].
    apply Forall_cons in Hrest as [Hc Hpost].
    apply Forall_app. split; [assumption|].
    constructor; [|assumption]. cbn [quantity with_quantity]. lia.
Qed.

Lemma update_keeps_positive (state : list CartItem) (p : UpdatePayload) :
  quantities_positive state →
  quantities_positive (cartReducer state (UPDATE_QUANTITY p)).
Proof.
  unfold quantities_positive. intros Hstate. simpl. apply Forall_fmap.
  eapply Forall_impl; [exact Hstate|].
  intros item Hq. unfold compose. cbv beta in Hq.
  destruct (isSameVariant item p); cbn [quantity with_quantity]; lia.
Qed.

Lemma remove_keeps_positive (state : list CartItem) (r : RemovePayload) :
  quantities_positive state →
  quantities_positive (cartReducer state (REMOVE_ITEM r)).
Proof.
  unfold quantities_positive. intros Hstate. simpl. apply Forall_forall.
  intros item Hin. apply list_elem_of_filter in Hin as [_ Hin].
  rewrite Forall_forall in Hstate. auto.
Qed.

Lemma add_keeps_unique (state : list CartItem) (payload : CartItem) :
  unique_variants state → unique_variants (cartReducer state (ADD_ITEM payload)).
Proof.
  unfold unique_variants. intros Hstate.
  destruct (split_at_variant state payload)
    as [Hnone | (pre & cur & post & -> & Hpre & Hcur)].
  - rewrite add_absent by assumption. rewrite fmap_app.
    apply NoDup_app. split; [assumption|].
    split; [|repeat constructor; apply not_elem_of_nil].
    intros v Hv Hv'. apply list_elem_of_singleton in Hv'. subst v.
    apply list_elem_of_fmap in Hv as (item & Heq & Hin).
    rewrite Forall_forall in Hnone. specialize (Hnone item Hin).
    apply isSameVariant_false in Hnone. congruence.
  - rewrite add_present by assumption.
    rewrite fmap_app, fmap_cons, variant_of_with_quantity.
    rewrite fmap_app, fmap_cons in Hstate. exact Hstate.
Qed.

Lemma update_keeps_unique (state : list CartItem) (p : UpdatePayload) :
  unique_variants state → unique_variants (cartReducer state (UPDATE_QUANTITY p)).
Proof. unfold unique_variants. rewrite variants_after_update. auto. Qed.

Lemma remove_keeps_unique (state : list CartItem) (r : RemovePayload) :
  unique_variants state → unique_variants (cartReducer state (REMOVE_ITEM r)).
Proof.
  unfold unique_variants. intros Hstate. simpl.
  eapply sublist_NoDup; [exact Hstate|]. apply fmap_sublist, sublist_filter.
Qed.

(** ** The controls of a cart line *)

Lemma isSameVariant_update_of (x item : CartItem) (n : Z) :
  isSameVariant x (mkUpdate (item_productId item) (item_color item) (item_size item) n)
  = isSameVariant x item.
Proof. reflexivity. Qed.

Lemma isSameVariant_remove_of (x item : CartItem) :
  isSameVariant x (mkRemove (item_productId item) (item_color item) (item_size item))
  = isSameVariant x item.
Proof. reflexivity. Qed.

Lemma isSameVariant_sym (a b : CartItem) : isSameVariant a b = isSameVariant b a.
Proof.
  destruct (isSameVariant b a) eqn:Hba.
  - apply isSameVariant_true. apply isSameVariant_true in Hba. auto.
  - apply isSameVariant_false. apply isSameVariant_false in Hba. auto.
Qed.

(** In a cart with one line per variant, a line is alone of its variant. *)
Lemma unique_line_alone (pre post : list CartItem) (item : CartItem) :
  unique_variants (pre ++ item :: post) →
  Forall (λ x, isSameVariant x item = false) pre
  ∧ Forall (λ x, isSameVariant x item = false) post.
Proof.
  unfold unique_variants. rewrite fmap_app, fmap_cons. intros Hnd.
  apply NoDup_app in Hnd as (_ & Hdisj & Hrest).
  apply NoDup_cons in Hrest as [Hnotin _].
  split; apply Forall_forall; intros x Hx; apply isSameVariant_false; intros Heq.
  - apply (Hdisj (variant_of x)).
    + apply list_elem_of_fmap. eauto.
    + rewrite Heq. constructor.
  - apply Hnotin. rewrite <- Heq. apply list_elem_of_fmap. eauto.
Qed.

Lemma update_line (pre post : list CartItem) (item : CartItem) (n : Z) :
  Forall (λ x, isSameVariant x item = false) pre →
  Forall (λ x, isSameVariant x item = false) post →
  cartReducer (pre ++ item :: post)
    (updateQuantity (item_productId item) (item_color item) (item_size item) n)
  = pre ++ with_quantity (Z.max 1 n) item :: post.
Proof.
  intros Hpre Hpost. unfold updateQuantity.
  pose proof (update_absent pre (mkUpdate (item_productId item) (item_color item)
                                   (item_size item) n)) as Hp.
  pose proof (update_absent post (mkUpdate (item_productId item) (item_color item)
                                    (item_size item) n)) as Hq.
  cbn [cartReducer] in *. rewrite fmap_app, fmap_cons.
  rewrite Hp by exact Hpre. rewrite Hq by exact Hpost.
  rewrite isSameVariant_update_of, isSameVariant_refl. reflexivity.
Qed.

(** X6. In a cart with one line per variant, the plus button of a line
    with a quantity of at least 1 and below [2^53], where adding one is
    exact, raises that line by one and changes nothing else, and the minus
    button of the raised line brings the cart back to what it was. *)
Theorem increase_then_decrease (state : list CartItem) (item : CartItem) :
  unique_variants state → item ∈ state → 1 ≤ quantity item →
  quantity item < 2 ^ 53 →
  let raised := with_quantity (quantity item + 1) item in
  (∃ pre post, state = pre ++ item :: post
     ∧ cartReducer state (CartLine.increase item) = pre ++ raised :: post)
  ∧ ∃ action, CartLine.decrease raised = Some action
      ∧ cartReducer (cartReducer state (CartLine.increase item)) action = state.
Proof.
  intros Huniq Hin Hq _ raised.
  apply list_elem_of_split in Hin as (pre & post & ->).
  destruct (unique_line_alone pre post item Huniq) as [Hpre Hpost].
  assert (Hup : cartReducer (pre ++ item :: post) (CartLine.increase item)
                = pre ++ raised :: post).
  { unfold CartLine.increase. rewrite update_line by assumption.
    subst raised. f_equal. f_equal. f_equal. lia. }
  split; [exists pre, post; auto|].
  unfold CartLine.decrease. subst raised. cbn [quantity with_quantity].
  rewrite bool_decide_eq_false_2 by lia. eexists. split; [reflexivity|].
  rewrite Hup.
  change (item_productId (with_quantity (quantity item + 1) item))
    with (item_productId item).
  change (item_color (with_quantity (quantity item + 1) item)) with (item_color item).
  change (item_size (with_quantity (quantity item + 1) item)) with (item_size item).
  pose proof (update_line pre post (with_quantity (quantity item + 1) item)
                (quantity item + 1 - 1)) as Hdown.
  cbn [item_productId item_color item_size with_quantity] in Hdown.
  rewrite Hdown by assumption.
  rewrite with_quantity_twice.
  replace (Z.max 1 (quantity item + 1 - 1)) with (quantity item) by lia.
  rewrite with_quantity_same. reflexivity.
Qed.

Lemma increase_then_decrease_witness :
  ∃ action, CartLine.decrease (with_quantity (quantity mug + 1) mug) = Some action
    ∧ cartReducer (cartReducer sample_cart (CartLine.increase mug)) action
      = sample_cart.
Proof.
  apply (increase_then_decrease sample_cart mug).
  - unfold unique_variants. apply (bool_decide_unpack _). vm_compute. exact I.
  - unfold sample_cart. apply list_elem_of_further, list_elem_of_here.
  - simpl. lia.
  - simpl. lia.
Defined.

(** X7. In a cart with one line per variant, the remove button of a line
    takes out that line and no other and keeps the order of the rest; when
    the unit count is exact, it lowers the count by the quantity of the
    line. *)
Theorem remove_takes_out_the_line (state : list CartItem) (item : CartItem) :
  unique_variants state → item ∈ state →
  ∃ pre post, state = pre ++ item :: post
    ∧ cartReducer state (CartLine.remove item) = pre ++ post
    ∧ occurrences item (cartReducer state (CartLine.remove item)) = 0%nat
    ∧ (exact_count state →
       itemCount (cartReducer state (CartLine.remove item))
       = itemCount state - quantity item).
Proof.
  intros Huniq Hin.
  apply list_elem_of_split in Hin as (pre & post & ->).
  destruct (unique_line_alone pre post item Huniq) as [Hpre Hpost].
  exists pre, post. split; [reflexivity|].
  assert (Hrm : cartReducer (pre ++ item :: post) (CartLine.remove item) = pre ++ post).
  { unfold CartLine.remove, removeItem.
    pose proof (remove_absent pre (mkRemove (item_productId item) (item_color item)
                                     (item_size item))) as Hp.
    pose proof (remove_absent post (mkRemove (item_productId item) (item_color item)
                                      (item_size item))) as Hq.
    cbn [cartReducer] in *. rewrite filter_app, filter_cons_False.
    - rewrite Hp by exact Hpre. rewrite Hq by exact Hpost. reflexivity.
    - rewrite isSameVariant_remove_of, isSameVariant_refl. discriminate. }
  rewrite Hrm. split; [reflexivity|]. split.
  - apply occurrences_zero, Forall_app. auto.
  - intros _. rewrite !itemCount_app, itemCount_cons. lia.
Qed.

Lemma remove_takes_out_the_line_witness :
  ∃ pre post, sample_cart = pre ++ mug :: post
    ∧ cartReducer sample_cart (CartLine.remove mug) = pre ++ post
    ∧ occurrences mug (cartReducer sample_cart (CartLine.remove mug)) = 0%nat
    ∧ itemCount (cartReducer sample_cart (CartLine.remove mug))
      = itemCount sample_cart - quantity mug.
Proof.
  destruct (remove_takes_out_the_line sample_cart mug)
    as (pre & post & Hsplit & Hremoved & Hnone & Hcount).
  - unfold unique_variants. apply (bool_decide_unpack _). vm_compute. exact I.
  - unfold sample_cart. apply list_elem_of_further, list_elem_of_here.
  - exists pre, post. split; [exact Hsplit|]. split; [exact Hremoved|].
    split; [exact Hnone|].
    apply Hcount. split; [repeat constructor; simpl; lia | vm_compute; discriminate].
Defined.

(** ** The quantity selector of the product page *)

Lemma maxQty_positive (availableStock : Z) : 1 ≤ AddToCartButton.maxQty availableStock.
Proof.
  unfold AddToCartButton.maxQty.
  destruct (bool_decide_reflect (availableStock > 0)); lia.
Qed.

Lemma press_keeps_floor (quantity : Z) (p : AddToCartButton.Press * Z) :
  1 ≤ quantity → 1 ≤ AddToCartButton.press quantity p.
Proof.
  intros Hq. destruct p as [[|] availableStock]; simpl.
  - destruct (bool_decide (quantity ≤ 1)); lia.
  - pose proof (maxQty_positive availableStock).
    destruct (bool_decide (AddToCartButton.maxQty availableStock ≤ quantity)); lia.
Qed.

Lemma presses_keep_floor (presses : list (AddToCartButton.Press * Z)) (quantity : Z) :
  1 ≤ quantity → 1 ≤ foldl AddToCartButton.press quantity presses.
Proof.
  revert quantity. induction presses as [|p presses IH]; intros quantity Hq; simpl.
  - exact Hq.
  - apply IH, press_keeps_floor, Hq.
Qed.

(** X8. Whatever buttons of the selector were pressed, and whatever the
    stock was at each press and is now, the quantity state is at least 1
    and the quantity shown and added lies between 1 and [maxQty]: it is at
    most the stock when the stock is positive, and 1 when it is not. *)
Theorem selector_quantity_bounds
    (presses : list (AddToCartButton.Press * Z)) (availableStock : Z) :
  let quantity := AddToCartButton.selected_quantity presses in
  1 ≤ quantity
  ∧ 1 ≤ AddToCartButton.adjustedQty quantity availableStock
  ∧ AddToCartButton.adjustedQty quantity availableStock
    ≤ AddToCartButton.maxQty availableStock
  ∧ (0 < availableStock →
     AddToCartButton.adjustedQty quantity availableStock ≤ availableStock)
  ∧ (availableStock ≤ 0 →
     AddToCartButton.adjustedQty quantity availableStock = 1).
Proof.
  cbv zeta.
  assert (Hq : 1 ≤ AddToCartButton.selected_quantity presses)
    by (apply presses_keep_floor; lia).
  pose proof (maxQty_positive availableStock) as Hmax.
  unfold AddToCartButton.adjustedQty.
  split; [exact Hq|]. split; [lia|]. split; [lia|].
  unfold AddToCartButton.maxQty in *.
  destruct (bool_decide_reflect (availableStock > 0)); split; lia.
Qed.

(** ** Validation on adding to the cart *)

Lemma selected_Some (selection : option string) :
  AddToCartButton.selected selection = true
  ↔ ∃ s, selection = Some s ∧ s ≠ EmptyString.
Proof.
  unfold AddToCartButton.selected, truthy. destruct selection as [s|].
  - destruct (bool_decide_reflect (s = EmptyString)) as [->|Hs]; simpl.
    + split; [discriminate | intros (s' & [= <-] & Hs'); contradiction].
    + split; [eauto | reflexivity].
  - split; [discriminate | intros (s & Hs & _); discriminate].
Qed.

(** X9. [handleAdd] adds an item exactly when the product is standalone or
    every kind of variant the product has is selected; otherwise it reports
    the first missing selection, colour before size, and adds nothing. The
    item added carries the product's id, name, price and currency, the
    selections as they are, and the bounded quantity; so for a product that
    is not standalone, an item of a product with colours has a colour and
    an item of a product with sizes has a size. *)
Theorem handleAdd_validation (product : Product)
    (selectedColor selectedSize : option string) (quantity availableStock : Z) :
  let needs_color :=
    standalone_item product ≠ Some true ∧ colors product ≠ [] in
  let needs_size :=
    standalone_item product ≠ Some true ∧ sizes_available product ≠ [] in
  let outcome :=
    AddToCartButton.handleAdd product selectedColor selectedSize quantity
      availableStock in
  (needs_color ∧ AddToCartButton.selected selectedColor = false →
     outcome = inl "Please select a color.")
  ∧ (¬ (needs_color ∧ AddToCartButton.selected selectedColor = false) →
     needs_size ∧ AddToCartButton.selected selectedSize = false →
     outcome = inl "Please select a size.")
  ∧ (∀ item, outcome = inr item →
       item = mkCartItem (product_id product) (product_name product)
                (product_price product) (product_currency product)
                (AddToCartButton.image_of product) selectedColor selectedSize
                (AddToCartButton.adjustedQty quantity availableStock)
       ∧ (needs_color → ∃ c, item_color item = Some c ∧ c ≠ EmptyString)
       ∧ (needs_size → ∃ s, item_size item = Some s ∧ s ≠ EmptyString)).
Proof.
  cbv zeta. unfold AddToCartButton.handleAdd.
  destruct (bool_decide_reflect (standalone_item product = Some true)) as [Hst|Hst];
    cbn [negb andb].
  - split; [intros [[Hne _] _]; contradiction|].
    split; [intros _ [[Hne _] _]; contradiction|].
    intros item [= <-]. split; [reflexivity|].
    split; intros [Hne _]; contradiction.
  - destruct (colors product) as [|c cs] eqn:Hcolors;
      destruct (sizes_available product) as [|z zs] eqn:Hsizes; cbn [negb andb].
    + split; [intros [[_ Hne] _]; contradiction|].
      split; [intros _ [[_ Hne] _]; contradiction|].
      intros item [= <-]. split; [reflexivity|].
      split; intros [_ Hne]; contradiction.
    + split; [intros [[_ Hne] _]; contradiction|].
      destruct (AddToCartButton.selected selectedSize) eqn:Hsel; cbn [negb].
      * split; [intros _ [_ Hn]; discriminate|].
        intros item [= <-]. split; [reflexivity|].
        split; [intros [_ Hne]; contradiction|].
        intros _. apply selected_Some, Hsel.
      * split; [reflexivity|]. intros item Hitem. discriminate.
    + destruct (AddToCartButton.selected selectedColor) eqn:Hsel; cbn [negb].
      * split; [intros [_ Hn]; discriminate|].
        split; [intros _ [[_ Hne] _]; contradiction|].
        intros item [= <-]. split; [reflexivity|].
        split; [intros _; apply selected_Some, Hsel|].
        intros [_ Hne]; contradiction.
      * split; [reflexivity|].
        split; [intros Hnot; exfalso; apply Hnot; repeat split; auto; discriminate|].
        intros item Hitem. discriminate.
    + destruct (AddToCartButton.selected selectedColor) eqn:Hcol; cbn [negb].
      * split; [intros [_ Hn]; discriminate|].
        destruct (AddToCartButton.selected selectedSize) eqn:Hsz; cbn [negb].
        -- split; [intros _ [_ Hn]; discriminate|].
           intros item [= <-]. split; [reflexivity|].
           split; intros _; apply selected_Some; assumption.
        -- split; [reflexivity|]. intros item Hitem. discriminate.
      * split; [reflexivity|].
        split; [intros Hnot; exfalso; apply Hnot; repeat split; auto; discriminate|].
        intros item Hitem. discriminate.
Qed.

Lemma handleAdd_validation_witness :
  AddToCartButton.handleAdd
    (mkProduct "p1" "Tee" 10 "USD" "/img/p1.png" [] ["Black"; "White"] ["M"] None)
    None (Some "M") 1 5
  = inl "Please select a color.".
Proof.
  apply (handleAdd_validation
           (mkProduct "p1" "Tee" 10 "USD" "/img/p1.png" [] ["Black"; "White"] ["M"] None)
           None (Some "M") 1 5).
  repeat split; discriminate.
Defined.

(** ** Carts reached through the storefront *)

Lemma handleAdd_quantity (product : Product) (selectedColor selectedSize : option string)
    (selection availableStock : Z) (item : CartItem) :
  AddToCartButton.handleAdd product selectedColor selectedSize selection availableStock
  = inr item →
  quantity item = AddToCartButton.adjustedQty selection availableStock.
Proof.
  unfold AddToCartButton.handleAdd. intros Hadd.
  repeat match type of Hadd with
         | (if ?c then _ else _) = _ => destruct c; [discriminate Hadd|]
         end.
  injection Hadd as <-. reflexivity.
Qed.

(** X10. Every cart reached from the empty one through the storefront's
    own controls (adding from a product page, the plus, minus and remove
    buttons of a line, clearing after checkout) has a quantity of at least
    1 on every line and at most one line per variant. *)
Theorem storefront_carts_are_well_formed (state : list CartItem) :
  ui_reachable state →
  quantities_positive state ∧ unique_variants state.
Proof.
  induction 1 as [|state action _ [Hpos Huniq] Hact].
  - split; constructor.
  - destruct Hact as [product c s presses stock item _ Hadd
                     | item _ | item action _ Hdec | item _ | ].
    + split; [|apply add_keeps_unique, Huniq].
      apply add_keeps_positive; [exact Hpos|].
      rewrite (handleAdd_quantity _ _ _ _ _ _ Hadd).
      unfold AddToCartButton.adjustedQty.
      pose proof (maxQty_positive stock).
      assert (1 ≤ AddToCartButton.selected_quantity presses)
        by (apply presses_keep_floor; lia).
      lia.
    + split; [apply update_keeps_positive, Hpos | apply update_keeps_unique, Huniq].
    + unfold CartLine.decrease in Hdec.
      destruct (bool_decide (quantity item ≤ 1)); [discriminate Hdec|].
      injection Hdec as <-.
      split; [apply update_keeps_positive, Hpos | apply update_keeps_unique, Huniq].
    + split; [apply remove_keeps_positive, Hpos | apply remove_keeps_unique, Huniq].
    + split; constructor.
Qed.

Lemma storefront_carts_are_well_formed_witness :
  quantities_positive
    (cartReducer (cartReducer [] (addItem mug)) (CartLine.increase mug))
  ∧ unique_variants
      (cartReducer (cartReducer [] (addItem mug)) (CartLine.increase mug)).
Proof.
  apply storefront_carts_are_well_formed.
  apply ui_reachable_step; [apply ui_reachable_step; [apply ui_reachable_init|]|].
  - apply (ui_add [] (mkProduct "p2" "Mug" 7 "EUR" "/img/p2.png" [] [] [] None)
             None None [] 3 mug); [discriminate | reflexivity].
  - apply ui_increase. simpl. apply list_elem_of_here.
Defined.

(** ** The API client *)

Section ClientAndRoute.

Variable String_of_thrown : string.

(** X11. [request] returns the body of a response exactly when the API
    answered ok and the body could be read. Every failure is an [Error]
    whose message starts with [[SpensitAPI]; for a response that is not ok
    it is [[SpensitAPI status]] followed by the [error] member of the body
    when present and not empty, otherwise by [API Error: status
    statusText]. *)
Theorem request_errors_name_the_client (endpoint : string) (net : ApiOutcome) :
  (∀ result, SpensitAPIClient.request String_of_thrown endpoint net = inr result ↔
     ∃ r, net = ApiResponded r ∧ api_ok r = true ∧ api_body r = inr result)
  ∧ (∀ err, SpensitAPIClient.request String_of_thrown endpoint net = inl err →
       ∃ message, err = ErrorObject message
                  ∧ String.prefix "[SpensitAPI" message = true)
  ∧ (∀ r, net = ApiResponded r → api_ok r = false →
       SpensitAPIClient.request String_of_thrown endpoint net
       = inl (ErrorObject
                ("[SpensitAPI " +:+ pretty (api_status r) +:+ "] "
                 +:+ or_else (match api_body r with inr b => error b | inl _ => None end)
                       ("API Error: " +:+ pretty (api_status r) +:+ " "
                        +:+ api_statusText r)))).
Proof.
  unfold SpensitAPIClient.request. split; [|split].
  - intros result. destruct net as [err|r]; cbn [negb].
    + split.
      * destruct err as [message|]; [destruct (String.prefix _ message)|];
          discriminate.
      * intros (r & Hr & _). discriminate Hr.
    + destruct (api_ok r) eqn:Hok; cbn [negb].
      * destruct (api_body r) as [err|b] eqn:Hbody.
        -- split.
           ++ destruct err as [message|]; [destruct (String.prefix _ message)|];
                discriminate.
           ++ intros (r' & [= <-] & _ & Hb). congruence.
        -- split.
           ++ intros [= <-]. exists r. auto.
           ++ intros (r' & [= <-] & _ & Hb). congruence.
      * split; [discriminate|]. intros (r' & [= <-] & Hok' & _). congruence.
  - intros err.
    set (attempt := match net with ApiRejected e => _ | ApiResponded r => _ end).
    destruct attempt as [[message|]|result]; [| |discriminate].
    + destruct (String.prefix "[SpensitAPI" message) eqn:Hprefix.
      * intros [= <-]. eauto.
      * intros [= <-]. eexists. split; reflexivity.
    + intros [= <-]. eexists. split; reflexivity.
  - intros r -> Hok. rewrite Hok. cbn [negb].
    destruct (api_body r) as [e|b]; reflexivity.
Qed.

(** ** The checkout route *)

Lemma POST_of_body (body : json) (net : ApiOutcome) :
  body ≠ JNull →
  CheckoutRoute.POST String_of_thrown (inr body) net
  = let forward (cartItems : list json) :=
      let payload :=
        SpensitAPIClient.createCheckout_payload cartItems (json_get "currency" body) in
      match SpensitAPIClient.request String_of_thrown "/api/checkout" net with
      | inr result =>
          CheckoutRoute.mkResult (Some payload) (CheckoutRoute.json_response result 200)
      | inl err =>
          CheckoutRoute.mkResult (Some payload)
            (CheckoutRoute.error_response (CheckoutRoute.route_message err) 500)
      end in
    match CheckoutRoute.nonempty_array (json_get "cart_items" body) with
    | Some cartItems => forward cartItems
    | None =>
        match CheckoutRoute.nonempty_array (json_get "product_ids" body) with
        | Some ids => forward (CheckoutRoute.legacy_item <$> ids)
        | None =>
            CheckoutRoute.mkResult None
              (CheckoutRoute.error_response CheckoutRoute.missing_items 400)
        end
    end.
Proof. intros Hbody. destruct body; [contradiction | reflexivity ..]. Qed.

Lemma nonempty_array_Some (v : option json) (elems : list json) :
  CheckoutRoute.nonempty_array v = Some elems ↔ v = Some (JArr elems) ∧ elems ≠ [].
Proof.
  unfold CheckoutRoute.nonempty_array.
  destruct v as [[| | | |[|e es]|]|]; split;
    try discriminate; try (intros [[=] _]; fail).
  - intros [[= <-] Hne]. contradiction.
  - intros [= <-]. split; [reflexivity | discriminate].
  - intros [[= <-] _]. reflexivity.
Qed.

Lemma createCheckout_payload_keys (cartItems : list json) (currency : option json) :
  json_get "cart_items" (SpensitAPIClient.createCheckout_payload cartItems currency)
  = Some (JArr cartItems)
  ∧ own_keys (SpensitAPIClient.createCheckout_payload cartItems currency)
    = (if match currency with Some c => js_truthy c | None => false end
       then ["cart_items"; "currency"] else ["cart_items"]).
Proof.
  unfold SpensitAPIClient.createCheckout_payload.
  destruct currency as [c|]; [destruct (js_truthy c)|]; split; reflexivity.
Qed.

(** X12. Whatever body the route receives, what it posts to the API has no
    top-level member besides [cart_items] and, when the body's [currency]
    is truthy, [currency]: any price, subtotal, total or tax sent at the
    top level is dropped. [cart_items] is the body's own non-empty array,
    passed on as it is, or else one item per legacy product id, with null
    colour and size and quantity 1. *)
Theorem route_forwards_cart_and_currency
    (body : json) (net : ApiOutcome) (payload : json) :
  CheckoutRoute.forwarded (CheckoutRoute.POST String_of_thrown (inr body) net)
  = Some payload →
  ∃ cartItems,
    cartItems ≠ []
    ∧ (json_get "cart_items" body = Some (JArr cartItems)
       ∨ (CheckoutRoute.nonempty_array (json_get "cart_items" body) = None
          ∧ ∃ ids, json_get "product_ids" body = Some (JArr ids)
                   ∧ cartItems = CheckoutRoute.legacy_item <$> ids))
    ∧ payload
      = SpensitAPIClient.createCheckout_payload cartItems (json_get "currency" body)
    ∧ json_get "cart_items" payload = Some (JArr cartItems)
    ∧ (own_keys payload = ["cart_items"]
       ∨ own_keys payload = ["cart_items"; "currency"])
    ∧ (∀ k, k ∈ forbidden_keys → k ∉ own_keys payload).
Proof.
  intros Hfwd.
  assert (Hbody : body ≠ JNull) by (intros ->; discriminate Hfwd).
  rewrite (POST_of_body body net Hbody) in Hfwd. cbv zeta in Hfwd.
  assert (Hshape : ∀ cartItems,
            cartItems ≠ [] →
            payload = SpensitAPIClient.createCheckout_payload cartItems
                        (json_get "currency" body) →
            json_get "cart_items" payload = Some (JArr cartItems)
            ∧ (own_keys payload = ["cart_items"]
               ∨ own_keys payload = ["cart_items"; "currency"])
            ∧ (∀ k, k ∈ forbidden_keys → k ∉ own_keys payload)).
  { intros cartItems _ ->.
    destruct (createCheckout_payload_keys cartItems (json_get "currency" body))
      as [Hget Hkeys].
    split; [exact Hget|].
    assert (Hor : own_keys (SpensitAPIClient.createCheckout_payload cartItems
                              (json_get "currency" body)) = ["cart_items"]
                  ∨ own_keys (SpensitAPIClient.createCheckout_payload cartItems
                                (json_get "currency" body))
                    = ["cart_items"; "currency"]).
    { rewrite Hkeys. destruct (match json_get "currency" body with
                               | Some c => js_truthy c | None => false end); auto. }
    split; [exact Hor|]. intros k Hk Hin.
    apply (forbidden_not_request_key k Hk).
    destruct Hor as [Hor|Hor]; rewrite Hor in Hin; by_cases_on Hin. }
  destruct (CheckoutRoute.nonempty_array (json_get "cart_items" body))
    as [cartItems|] eqn:Hitems.
  - apply nonempty_array_Some in Hitems as [Hget Hne].
    assert (Hpayload : payload = SpensitAPIClient.createCheckout_payload cartItems
                                   (json_get "currency" body)).
    { destruct (SpensitAPIClient.request String_of_thrown "/api/checkout" net);
        simpl in Hfwd; congruence. }
    exists cartItems. split; [exact Hne|]. split; [left; exact Hget|].
    split; [exact Hpayload|]. apply Hshape; assumption.
  - destruct (CheckoutRoute.nonempty_array (json_get "product_ids" body))
      as [ids|] eqn:Hids; [|discriminate Hfwd].
    apply nonempty_array_Some in Hids as [Hget Hne].
    assert (Hpayload : payload = SpensitAPIClient.createCheckout_payload
                                   (CheckoutRoute.legacy_item <$> ids)
                                   (json_get "currency" body)).
    { destruct (SpensitAPIClient.request String_of_thrown "/api/checkout" net);
        simpl in Hfwd; congruence. }
    assert (Hne' : CheckoutRoute.legacy_item <$> ids ≠ [])
      by (destruct ids; [contradiction | discriminate]).
    exists (CheckoutRoute.legacy_item <$> ids). split; [exact Hne'|].
    split; [right; split; [reflexivity|]; exists ids; auto|].
    split; [exact Hpayload|]. apply Hshape; assumption.
Qed.

(** X13. For a body that is not [null], the route answers 400 with its
    fixed message, without calling the API, exactly when the body has
    neither a non-empty array [cart_items] nor a non-empty array
    [product_ids]; a body that cannot be read is answered with 500 and the
    message of the exception, again without a call. *)
Theorem route_rejects_missing_items (body : json) (net : ApiOutcome) :
  body ≠ JNull →
  (CheckoutRoute.nonempty_array (json_get "cart_items" body) = None
   ∧ CheckoutRoute.nonempty_array (json_get "product_ids" body) = None →
   CheckoutRoute.POST String_of_thrown (inr body) net
   = CheckoutRoute.mkResult None
       (mkResponse false 400
          (inr (mkBody (Some CheckoutRoute.missing_items) (mkData None None None)))))
  ∧ (CheckoutRoute.forwarded (CheckoutRoute.POST String_of_thrown (inr body) net) = None →
     CheckoutRoute.nonempty_array (json_get "cart_items" body) = None
     ∧ CheckoutRoute.nonempty_array (json_get "product_ids" body) = None)
  ∧ (∀ err,
       CheckoutRoute.POST String_of_thrown (inl err) net
       = CheckoutRoute.mkResult None
           (mkResponse false 500
              (inr (mkBody (Some (CheckoutRoute.route_message err))
                      (mkData None None None))))).
Proof.
  intros Hbody. rewrite (POST_of_body body net Hbody). cbv zeta.
  split; [|split].
  - intros [-> ->]. reflexivity.
  - destruct (CheckoutRoute.nonempty_array (json_get "cart_items" body)).
    + destruct (SpensitAPIClient.request String_of_thrown "/api/checkout" net);
        discriminate.
    + destruct (CheckoutRoute.nonempty_array (json_get "product_ids" body));
        [|auto].
      destruct (SpensitAPIClient.request String_of_thrown "/api/checkout" net);
        discriminate.
  - intros err. reflexivity.
Qed.

End ClientAndRoute.

Lemma request_errors_name_the_client_witness :
  SpensitAPIClient.request "thrown" "/api/checkout"
    (ApiResponded (mkApiResponse false 409 "Conflict"
                     (inr (mkBody (Some "Out of stock") (mkData None None None)))))
  = inl (ErrorObject "[SpensitAPI 409] Out of stock").
Proof.
  destruct (request_errors_name_the_client "thrown" "/api/checkout"
              (ApiResponded (mkApiResponse false 409 "Conflict"
                               (inr (mkBody (Some "Out of stock") (mkData None None None))))))
    as (_ & _ & Hnot_ok).
  apply (Hnot_ok _ eq_refl eq_refl).
Defined.


Lemma route_forwards_cart_and_currency_witness :
  ∃ cartItems,
    cartItems ≠ []
    ∧ SpensitAPIClient.createCheckout_payload [JObj [("product_id", JStr "p1")]] None
      = SpensitAPIClient.createCheckout_payload cartItems None.
Proof.
  destruct (route_forwards_cart_and_currency "thrown"
              (JObj [("cart_items", JArr [JObj [("product_id", JStr "p1")]]);
                     ("total_price", JNum 1)])
              (ApiRejected OtherValue)
              (SpensitAPIClient.createCheckout_payload
                 [JObj [("product_id", JStr "p1")]] None))
    as (cartItems & Hne & _ & Hpayload & _).
  - reflexivity.
  - exists cartItems. split; [exact Hne | exact Hpayload].
Defined.

Lemma route_rejects_missing_items_witness :
  CheckoutRoute.POST "thrown" (inr (JObj [("cart_items", JArr [])]))
    (ApiRejected OtherValue)
  = CheckoutRoute.mkResult None
      (mkResponse false 400
         (inr (mkBody (Some CheckoutRoute.missing_items) (mkData None None None)))).
Proof.
  destruct (route_rejects_missing_items "thrown" (JObj [("cart_items", JArr [])])
              (ApiRejected OtherValue))
    as (Hreject & _); [discriminate|].
  apply Hreject. split; reflexivity.
Defined.

(** ** From the click to the API and back *)

Lemma click_redirected (site : CallSite) (s : Session) (net : FetchOutcome)
    (url : string) :
  fst (handler_of site (items s) net)
  = redirected_attempt (request_of site (items s)) (closing site) url →
  click (handler_of site) s net
  = mkSession [] (match site with Button => isDrawerOpen s | Drawer => false end)
      true None (sent s ++ [request_of site (items s)]) (Some url).
Proof.
  intros Htrace. unfold click. rewrite Htrace. destruct site; reflexivity.
Qed.

Section EndToEnd.

Variable String_of_thrown : string.

Lemma request_failure_named (endpoint : string) (net : ApiOutcome) (err : Thrown) :
  SpensitAPIClient.request String_of_thrown endpoint net = inl err →
  ∃ message, err = ErrorObject message
             ∧ String.prefix "[SpensitAPI" message = true.
Proof.
  unfold SpensitAPIClient.request.
  set (attempt := match net with ApiRejected e => _ | ApiResponded r => _ end).
  destruct attempt as [[message|]|result]; [| |discriminate].
  - destruct (String.prefix "[SpensitAPI" message) eqn:Hprefix.
    + intros [= <-]. eauto.
    + intros [= <-]. eexists. split; reflexivity.
  - intros [= <-]. eexists. split; reflexivity.
Qed.

Lemma request_of_nonempty (site : CallSite) (first : CartItem) (rest : list CartItem) :
  json_get "cart_items" (request_of site (first :: rest))
  = Some (JArr (checkout_item <$> first :: rest))
  ∧ json_get "product_ids" (request_of site (first :: rest)) = None
  ∧ json_get "currency" (request_of site (first :: rest))
    = Some (JStr (item_currency first))
  ∧ request_of site (first :: rest)
    = JObj [("cart_items", JArr (checkout_item <$> first :: rest));
            ("currency", JStr (item_currency first))].
Proof. destruct site; repeat split; reflexivity. Qed.

Lemma POST_of_cart (site : CallSite) (first : CartItem) (rest : list CartItem)
    (net : ApiOutcome) :
  CheckoutRoute.POST String_of_thrown (inr (request_of site (first :: rest))) net
  = let payload :=
      SpensitAPIClient.createCheckout_payload (checkout_item <$> first :: rest)
        (Some (JStr (item_currency first))) in
    match SpensitAPIClient.request String_of_thrown "/api/checkout" net with
    | inr result =>
        CheckoutRoute.mkResult (Some payload) (CheckoutRoute.json_response result 200)
    | inl err =>
        CheckoutRoute.mkResult (Some payload)
          (CheckoutRoute.error_response (CheckoutRoute.route_message err) 500)
    end.
Proof.
  destruct (request_of_nonempty site first rest) as (_ & _ & _ & ->).
  reflexivity.
Qed.

(** X14. The request a call site builds from a cart that is not empty
    passes the route and is posted to the API with the same [cart_items],
    and unchanged as a whole when the first line has a currency; when that
    currency is the empty string, [currency] is left out. The request of an
    empty cart is answered with 400 and never reaches the API. *)
Theorem cart_request_through_route
    (site : CallSite) (l : list CartItem) (net : ApiOutcome) :
  (l = [] →
     CheckoutRoute.POST String_of_thrown (inr (request_of site l)) net
     = CheckoutRoute.mkResult None
         (mkResponse false 400
            (inr (mkBody (Some CheckoutRoute.missing_items) (mkData None None None)))))
  ∧ (∀ first rest, l = first :: rest →
       ∃ payload,
         CheckoutRoute.forwarded
           (CheckoutRoute.POST String_of_thrown (inr (request_of site l)) net)
         = Some payload
         ∧ json_get "cart_items" payload = Some (JArr (checkout_item <$> l))
         ∧ (item_currency first ≠ EmptyString → payload = request_of site l)
         ∧ (item_currency first = EmptyString →
            payload = JObj [("cart_items", JArr (checkout_item <$> l))])).
Proof.
  split.
  - intros ->. destruct site; reflexivity.
  - intros first rest ->. rewrite POST_of_cart. cbv zeta.
    exists (SpensitAPIClient.createCheckout_payload (checkout_item <$> first :: rest)
              (Some (JStr (item_currency first)))).
    split; [destruct (SpensitAPIClient.request _ _ net); reflexivity|].
    split; [apply createCheckout_payload_keys|].
    destruct (request_of_nonempty site first rest) as (_ & _ & _ & ->).
    unfold SpensitAPIClient.createCheckout_payload, js_truthy, truthy.
    destruct (bool_decide_reflect (item_currency first = EmptyString)) as [Hcur|Hcur];
      split; intros Hcur'; try contradiction; reflexivity.
Qed.

(** X15. When the call to the API fails, the click of either call site on
    a cart that is not empty ends in the Failed state: the cart, the
    location and the drawer are as before, loading is off, and the message
    shown is the client's error message, which starts with [[SpensitAPI];
    for an API response that is not ok it is [[SpensitAPI status]] followed
    by the API's [error] text. *)
Theorem api_failure_reaches_the_user
    (site : CallSite) (s : Session) (net : ApiOutcome) (err : Thrown) :
  items s ≠ [] →
  SpensitAPIClient.request String_of_thrown "/api/checkout" net = inl err →
  let s' := CheckoutRoute.click_through String_of_thrown site s net in
  items s' = items s
  ∧ location s' = location s
  ∧ isDrawerOpen s' = isDrawerOpen s
  ∧ loading s' = false
  ∧ errorShown s' = Some (message_of err)
  ∧ String.prefix "[SpensitAPI" (message_of err) = true.
Proof.
  intros Hitems Hreq s'. subst s'. unfold CheckoutRoute.click_through.
  destruct (items s) as [|first rest] eqn:Hl; [contradiction|].
  rewrite POST_of_cart, Hreq. cbv zeta. cbn [CheckoutRoute.response].
  destruct (request_failure_named _ _ _ Hreq) as (message & -> & Hprefix).
  cbn [CheckoutRoute.route_message message_of].
  assert (Hne : message ≠ EmptyString) by (intros ->; discriminate Hprefix).
  assert (Htrace : fst (handler_of site (items s)
                          (Responded (CheckoutRoute.error_response message 500)))
                   = failed_attempt (request_of site (items s)) message).
  { assert (Hmsg : failure_message (CheckoutRoute.error_response message 500) = message).
    { unfold failure_message, CheckoutRoute.error_response, CheckoutRoute.json_response.
      cbn [body error status or_else]. unfold truthy.
      rewrite bool_decide_eq_false_2 by exact Hne. reflexivity. }
    rewrite <- Hmsg at 2.
    destruct site; cbn [handler_of request_of];
      [apply CheckoutButton_not_ok | apply CartDrawer_not_ok]; reflexivity. }
  rewrite <- Hl. rewrite (click_failed _ s _ _ _ Htrace).
  cbn [items location isDrawerOpen loading errorShown].
  repeat split; auto.
Qed.

(** X16. When the API answers ok with a body from which the call site
    resolves a URL, the click on a cart that is not empty ends in the
    Redirected state: the cart is empty, the location is that URL, no error
    is shown, loading stays on, and the drawer call site has closed the
    drawer. When no URL is resolved, the cart is kept and the call site's
    message is shown. *)
Theorem api_success_redirects
    (site : CallSite) (s : Session) (net : ApiOutcome) (result : ResponseBody) :
  items s ≠ [] →
  SpensitAPIClient.request String_of_thrown "/api/checkout" net = inr result →
  let s' := CheckoutRoute.click_through String_of_thrown site s net in
  (∀ url, resolve_of site (data result) = mret url →
     items s' = [] ∧ location s' = Some url ∧ errorShown s' = None
     ∧ loading s' = true
     ∧ isDrawerOpen s' = match site with Button => isDrawerOpen s | Drawer => false end)
  ∧ ((∀ url, resolve_of site (data result) ≠ mret url) →
     items s' = items s ∧ location s' = location s ∧ loading s' = false
     ∧ errorShown s' = Some (unresolved_message site (data result))).
Proof.
  intros Hitems Hreq s'. subst s'. unfold CheckoutRoute.click_through.
  destruct (items s) as [|first rest] eqn:Hl; [contradiction|].
  rewrite POST_of_cart, Hreq. cbv zeta. cbn [CheckoutRoute.response].
  rewrite <- Hl. split.
  - intros url Hurl.
    rewrite (click_redirected site s _ url).
    + repeat split.
    + apply (handler_resolved site (items s) _ result url); auto.
  - intros Hnone.
    destruct (resolve_of_cases site (data result)) as [[url Hurl]|Hthrow];
      [exfalso; exact (Hnone url Hurl)|].
    rewrite (click_failed _ s _ (request_of site (items s))
               (unresolved_message site (data result))).
    + repeat split.
    + apply (handler_unresolved site (items s)
               (CheckoutRoute.json_response result 200) result _
               eq_refl eq_refl Hthrow).
Qed.

End EndToEnd.

Lemma cart_request_through_route_witness :
  ∃ payload,
    CheckoutRoute.forwarded
      (CheckoutRoute.POST "thrown" (inr (request_of Drawer sample_cart))
         (ApiRejected OtherValue))
    = Some payload
    ∧ json_get "cart_items" payload = Some (JArr (checkout_item <$> sample_cart))
    ∧ (item_currency (tee 3 "Tee" 10 "USD") ≠ EmptyString →
       payload = request_of Drawer sample_cart)
    ∧ (item_currency (tee 3 "Tee" 10 "USD") = EmptyString →
       payload = JObj [("cart_items", JArr (checkout_item <$> sample_cart))]).
Proof.
  destruct (cart_request_through_route "thrown" Drawer sample_cart
              (ApiRejected OtherValue)) as (_ & Hsent).
  apply (Hsent (tee 3 "Tee" 10 "USD") [mug]). reflexivity.
Defined.

Lemma api_failure_reaches_the_user_witness :
  errorShown
    (CheckoutRoute.click_through "thrown" Button (initial_session sample_cart)
       (ApiResponded (mkApiResponse false 409 "Conflict"
                        (inr (mkBody (Some "Out of stock") (mkData None None None))))))
  = Some "[SpensitAPI 409] Out of stock".
Proof.
  destruct (api_failure_reaches_the_user "thrown" Button (initial_session sample_cart)
              (ApiResponded (mkApiResponse false 409 "Conflict"
                               (inr (mkBody (Some "Out of stock") (mkData None None None)))))
              (ErrorObject "[SpensitAPI 409] Out of stock"))
    as (_ & _ & _ & _ & Hshown & _).
  - discriminate.
  - reflexivity.
  - exact Hshown.
Defined.

Lemma api_success_redirects_witness :
  items
    (CheckoutRoute.click_through "thrown" Drawer (initial_session sample_cart)
       (ApiResponded (mkApiResponse true 200 "OK"
                        (inr (mkBody None (mkData None (Some "abc") (Some "xyz")))))))
  = []
  ∧ location
      (CheckoutRoute.click_through "thrown" Drawer (initial_session sample_cart)
         (ApiResponded (mkApiResponse true 200 "OK"
                          (inr (mkBody None (mkData None (Some "abc") (Some "xyz")))))))
    = Some "https://spenspay.spensit.com/tempcheckout/xyz/abc".
Proof.
  destruct (api_success_redirects "thrown" Drawer (initial_session sample_cart)
              (ApiResponded (mkApiResponse true 200 "OK"
                               (inr (mkBody None (mkData None (Some "abc") (Some "xyz"))))))
              (mkBody None (mkData None (Some "abc") (Some "xyz"))))
    as (Hredirect & _).
  - discriminate.
  - reflexivity.
  - destruct (Hredirect "https://spenspay.spensit.com/tempcheckout/xyz/abc" eq_refl)
      as (Hitems & Hloc & _).
    split; [exact Hitems | exact Hloc].
Defined.

(** ** No second submission *)

(** X17. Every run of a checkout handler starts by turning loading on,
    clearing the error and sending the request; while the request is in
    flight the cart is untouched and neither the checkout button nor "Try
    again" can be pressed. An attempt either fails or redirects. After a
    redirect both controls stay unavailable. After a failure, of whatever
    kind, the checkout button is available again exactly for a cart that
    is not empty, and the "Try again" of the call site that ran is shown
    exactly when the message is not empty and, in the drawer, the cart is
    not empty either. *)
Theorem no_submission_while_in_flight
    (site : CallSite) (s : Session) (net : FetchOutcome) :
  let waiting := in_flight site s in
  let done := click (handler_of site) s net in
  let nonempty := negb (if items s is [] then true else false) in
  items waiting = items s
  ∧ can_checkout waiting = false
  ∧ can_retry site waiting = false
  ∧ (∃ rest,
       fst (handler_of site (items s) net)
       = [SetLoading true; SetError None;
          Fetch "/api/checkout" (request_of site (items s))] ++ rest
       ∧ done = foldl perform waiting rest)
  ∧ (failure site net ∨ ∃ url, Navigate url ∈ fst (handler_of site (items s) net))
  ∧ ((∃ url, Navigate url ∈ fst (handler_of site (items s) net)) →
     can_checkout done = false ∧ can_retry site done = false)
  ∧ (failure site net →
     can_checkout done = nonempty
     ∧ ∃ message, errorShown done = Some message
         ∧ can_retry site done
           = match site with
             | Button => truthy message
             | Drawer => truthy message && nonempty
             end).
Proof.
  cbv zeta. split; [reflexivity|]. split; [reflexivity|].
  split; [destruct site; reflexivity|].
  destruct (failure_or_redirect site net)
    as [Hfailed|(r & b & url & -> & Hok & Hbody & Hurl)].
  - destruct (failure_trace site (items s) net Hfailed) as (message & Htrace & _).
    split; [|split; [|split]].
    + exists [SetError (Some message); SetLoading false].
      split; [exact Htrace|]. unfold click, in_flight. rewrite Htrace. reflexivity.
    + left. exact Hfailed.
    + intros [url Hin]. rewrite Htrace in Hin. exfalso.
      exact (no_navigate_in_failed _ _ _ Hin).
    + intros _. rewrite (click_failed _ s net _ message Htrace).
      split; [reflexivity|]. exists message. split; [reflexivity|].
      destruct site; reflexivity.
  - pose proof (handler_resolved site (items s) r b url Hok Hbody Hurl) as Htrace.
    split; [|split; [|split]].
    + exists ([Dispatch CLEAR_CART] ++ closing site ++ [Navigate url]).
      split; [exact Htrace|]. unfold click, in_flight. rewrite Htrace. reflexivity.
    + right. exists url. rewrite Htrace. apply navigate_in_redirected.
    + intros _. rewrite (click_redirected site s _ url Htrace).
      split; [reflexivity | destruct site; reflexivity].
    + intros Hfailed. exfalso.
      destruct (failure_trace site (items s) _ Hfailed) as (message & Htrace' & _).
      rewrite Htrace in Htrace'.
      apply (no_navigate_in_failed (request_of site (items s)) message url).
      rewrite <- Htrace'. apply navigate_in_redirected.
Qed.

Lemma no_submission_while_in_flight_witness :
  (can_checkout
     (click (handler_of Drawer) (initial_session sample_cart)
        (Responded (mkResponse true 200
                      (inr (mkBody None (mkData None (Some "abc") (Some "xyz")))))))
   = false
   ∧ can_retry Drawer
       (click (handler_of Drawer) (initial_session sample_cart)
          (Responded (mkResponse true 200
                        (inr (mkBody None (mkData None (Some "abc") (Some "xyz")))))))
     = false)
  ∧ can_retry Drawer
      (click (handler_of Drawer) (initial_session sample_cart)
         (Rejected (ErrorObject "Failed to fetch")))
    = true.
Proof.
  split.
  - destruct (no_submission_while_in_flight Drawer (initial_session sample_cart)
                (Responded (mkResponse true 200
                              (inr (mkBody None (mkData None (Some "abc") (Some "xyz")))))))
      as (_ & _ & _ & _ & _ & Hredirected & _).
    apply Hredirected.
    exists "https://spenspay.spensit.com/tempcheckout/xyz/abc".
    vm_compute. repeat constructor.
  - destruct (no_submission_while_in_flight Drawer (initial_session sample_cart)
                (Rejected (ErrorObject "Failed to fetch")))
      as (_ & _ & _ & _ & _ & _ & Hfailed).
    destruct Hfailed as (_ & message & Hshown & Hretry); [constructor|].
    rewrite Hretry. vm_compute in Hshown. injection Hshown as <-. reflexivity.
Defined.

(** ** More on the majority currency *)

Lemma majority_is_listed (l : list CartItem) :
  l ≠ [] → ∃ item, item ∈ l ∧ currency item = getMajorityCurrency l.
Proof.
  intros Hne. destruct l as [|item0 rest]; [contradiction|].
  set (l := item0 :: rest).
  change (getMajorityCurrency l)
    with (fst (pick_majority (currency item0, 0) (Object_entries (count_currencies l)))).
  destruct (pick_majority_listed (currency item0) 0 (Object_entries (count_currencies l)))
    as [->|Hkey].
  - exists item0. split; [constructor | reflexivity].
  - apply list_elem_of_fmap in Hkey as (entry & Hm & Hentry).
    apply Object_entries_subset in Hentry.
    apply currency_count_pos, count_currencies_keys.
    rewrite Hm. apply list_elem_of_fmap. exists entry. auto.
Qed.

(** X18. For a cart that is not empty, the majority currency is the
    currency of one of its lines; so a cart whose lines all share one
    currency resolves to that currency. *)
Theorem majority_of_single_currency (l : list CartItem) (c : string) :
  l ≠ [] → Forall (λ item, currency item = c) l →
  getMajorityCurrency l = c.
Proof.
  intros Hne Hall. destruct (majority_is_listed l Hne) as (item & Hin & <-).
  rewrite Forall_forall in Hall. apply Hall, Hin.
Qed.

Lemma majority_of_single_currency_witness :
  getMajorityCurrency [priced "GBP" "a"; priced "GBP" "b"] = "GBP".
Proof.
  apply (majority_of_single_currency [priced "GBP" "a"; priced "GBP" "b"] "GBP").
  - discriminate.
  - repeat constructor.
Defined.

Lemma count_currencies_of_codes (l : list CartItem) :
  count_currencies l
  = foldl (λ counts c, counts_assign c (incremented (counts_read c counts)) counts)
          [] (currency <$> l).
Proof. unfold count_currencies. rewrite foldl_fmap. reflexivity. Qed.

(** X19. The majority currency depends on the currencies of the lines, in
    their order, and on nothing else: two carts with the same sequence of
    currencies resolve to the same currency, whatever their products,
    prices and quantities. *)
Theorem majority_depends_on_currencies_only (l l' : list CartItem) :
  currency <$> l = currency <$> l' →
  getMajorityCurrency l = getMajorityCurrency l'.
Proof.
  intros Hcodes. unfold getMajorityCurrency.
  rewrite !count_currencies_of_codes, <- Hcodes.
  destruct l as [|x l], l' as [|x' l']; try discriminate Hcodes; [reflexivity|].
  injection Hcodes as Hx _. fold (currency x) in Hx. fold (currency x') in Hx.
  rewrite Hx. reflexivity.
Qed.

Lemma majority_depends_on_currencies_only_witness :
  getMajorityCurrency [mkCartItem "a" "A" 5 "USD" "/img/a.png" None None 100; mug; mug]
  = getMajorityCurrency [priced "USD" "x"; priced "EUR" "y"; priced "EUR" "z"].
Proof.
  apply majority_depends_on_currencies_only. reflexivity.
Defined.

Lemma selector_quantity_bounds_witness :
  AddToCartButton.adjustedQty
    (AddToCartButton.selected_quantity
       [(AddToCartButton.Plus, 5); (AddToCartButton.Plus, 5); (AddToCartButton.Plus, 5)])
    2
  ≤ 2.
Proof.
  destruct (selector_quantity_bounds
              [(AddToCartButton.Plus, 5); (AddToCartButton.Plus, 5);
               (AddToCartButton.Plus, 5)] 2)
    as (_ & _ & _ & Hstock & _).
  apply Hstock. lia.
Defined.

(** ** The answer of the route *)

(** X20. When the route calls the API, its answer mirrors the outcome of
    that call: the body of the API's ok response, unchanged, with status
    200; otherwise status 500 with the client's error message, which starts
    with [[SpensitAPI], as the [error] member. *)
Theorem route_answer_mirrors_api
    (String_of_thrown : string) (body : json) (net : ApiOutcome) (payload : json) :
  CheckoutRoute.forwarded (CheckoutRoute.POST String_of_thrown (inr body) net)
  = Some payload →
  match SpensitAPIClient.request String_of_thrown "/api/checkout" net with
  | inr result =>
      CheckoutRoute.response (CheckoutRoute.POST String_of_thrown (inr body) net)
      = mkResponse true 200 (inr result)
  | inl err =>
      ∃ message,
        err = ErrorObject message
        ∧ String.prefix "[SpensitAPI" message = true
        ∧ CheckoutRoute.response (CheckoutRoute.POST String_of_thrown (inr body) net)
          = mkResponse false 500
              (inr (mkBody (Some message) (mkData None None None)))
  end.
Proof.
  intros Hfwd.
  assert (Hbody : body ≠ JNull) by (intros ->; discriminate Hfwd).
  rewrite (POST_of_body String_of_thrown body net Hbody) in Hfwd |- *.
  cbv zeta in Hfwd |- *.
  destruct (SpensitAPIClient.request String_of_thrown "/api/checkout" net)
    as [err|result] eqn:Hreq.
  - destruct (request_failure_named String_of_thrown _ _ _ Hreq)
      as (message & -> & Hprefix).
    exists message. split; [reflexivity|]. split; [exact Hprefix|].
    destruct (CheckoutRoute.nonempty_array (json_get "cart_items" body));
      [reflexivity|].
    destruct (CheckoutRoute.nonempty_array (json_get "product_ids" body));
      [reflexivity | discriminate Hfwd].
  - destruct (CheckoutRoute.nonempty_array (json_get "cart_items" body));
      [reflexivity|].
    destruct (CheckoutRoute.nonempty_array (json_get "product_ids" body));
      [reflexivity | discriminate Hfwd].
Qed.

Lemma route_answer_mirrors_api_witness :
  CheckoutRoute.response
    (CheckoutRoute.POST "thrown" (inr (JObj [("product_ids", JArr [JStr "p1"])]))
       (ApiResponded (mkApiResponse true 200 "OK"
                        (inr (mkBody None (mkData None (Some "abc") (Some "xyz")))))))
  = mkResponse true 200 (inr (mkBody None (mkData None (Some "abc") (Some "xyz")))).
Proof.
  apply (route_answer_mirrors_api "thrown" (JObj [("product_ids", JArr [JStr "p1"])])
           (ApiResponded (mkApiResponse true 200 "OK"
                            (inr (mkBody None (mkData None (Some "abc") (Some "xyz"))))))
           (SpensitAPIClient.createCheckout_payload
              [CheckoutRoute.legacy_item (JStr "p1")] None)).
  reflexivity.
Defined.
